(** * DG.FormulaContext: identifier and function binding for formulas

    A shallow embedding of [apps/dg/formula/formula_context.js]: the function
    context stack, [compileVariable] / [evaluateVariable],
    [compileFunction] / [evaluateFunction], [checkArgs],
    [createContextFunction] and the built-in functions [trunc], [frac] and
    [round], followed by the properties the specification states about them.

    JavaScript objects used as tables are finite maps from property names to
    values; the map of an object stands for the whole property lookup, the
    members the object inherits from its prototype included ([o[k]] is
    [undefined] exactly when the map has no entry for [k] or maps it to
    [undefined]).  Exceptions and the calls the context makes to its hooks
    ([registerDependency], [DG.logError]) and to the functions it binds are
    threaded through a state-and-exception monad.  What belongs to the host
    -- the [Math] object, what applying a function object yields, the
    wrapper objects of primitive values, the global object -- is a variable
    of the development. *)

From Stdlib Require Import ZArith QArith Qround Lia Lqa.
From stdpp Require Import base option list gmap strings.

#[local] Set Warnings "-register-all".
#[local] Open Scope Z_scope.

(** ** Values *)

(** A function object is known by the table it was defined in and its key
    there; what it computes is supplied by the host (see [Section Host]). *)
Inductive func : Type :=
| DGFn (key : string)        (* a member of DG.FormulaContext.prototype._fns *)
| MathFn (key : string)      (* a native member of the host Math object *)
| ObjectFn (key : string)    (* a native member of Object.prototype *)
| ClientFn (key : string).   (* a function supplied by the client *)

(** A number is a finite double, read as the rational it is, or one of NaN
    and the two infinities.  The two zeros are one number here: the
    operations modelled below ([<], [-], rounding to an integer) take zeros
    to zeros whatever their signs. *)
Inductive number : Type :=
| Finite (q : Q)
| NaN
| Infinity
| NegInfinity.

Bind Scope Q_scope with number.

Coercion Finite : Q >-> number.

Inductive value : Type :=
| VUndefined
| VNull
| VBoolean (b : bool)
| VNumber (n : number)
| VString (s : string)
| VFunction (f : func)
| VObject (props : gmap string value).

Abbreviation object := (gmap string value).

(** [o[k]] for an object [o]. *)
Definition get (o : object) (k : string) : value :=
  match o !! k with
  | Some v => v
  | None => VUndefined
  end.

(** [v !== undefined] *)
Definition isUndefined (v : value) : bool :=
  match v with
  | VUndefined => true
  | _ => false
  end.

(** ToBoolean, as used by [&&], [?:] and [if]: of the numbers, zero and NaN
    are falsy. *)
Definition truthy (v : value) : bool :=
  match v with
  | VUndefined | VNull => false
  | VBoolean b => b
  | VNumber (Finite q) => negb (Qeq_bool q 0)
  | VNumber NaN => false
  | VNumber Infinity | VNumber NegInfinity => true
  | VString s => negb (bool_decide (s = ""))
  | VFunction _ | VObject _ => true
  end.

(** [typeof v === 'function'] *)
Definition isFunction (v : value) : bool :=
  match v with
  | VFunction _ => true
  | _ => false
  end.

(** ** Arithmetic of the host *)

(** [x < 0]: every comparison with NaN is false. *)
Definition ltZero (x : number) : bool :=
  match x with
  | Finite q => negb (Qle_bool 0 q)
  | NaN | Infinity => false
  | NegInfinity => true
  end.

(** The integer next to a rational on the side of zero. *)
Definition towardZero (q : Q) : Z :=
  if Qle_bool 0 q then Qfloor q else Qceiling q.

(** [x - y] where the double result is known without rounding: when an
    operand is NaN or infinite, and for a finite [x] less its integer part,
    a difference that is itself a double.  Any other difference of finite
    doubles is rounded and is not computed here. *)
Definition minus (x y : number) : option number :=
  match x, y with
  | NaN, _ | _, NaN => Some NaN
  | Infinity, Infinity | NegInfinity, NegInfinity => Some NaN
  | Infinity, _ | Finite _, NegInfinity => Some Infinity
  | NegInfinity, _ | Finite _, Infinity => Some NegInfinity
  | Finite a, Finite b =>
      if Qeq_bool b (inject_Z (towardZero a)) then Some (Finite (a - b)) else None
  end.

(** [Math.ceil], [Math.floor] and [Math.round] as ECMAScript 5.1 defines
    them (15.8.2.6, 15.8.2.9, 15.8.2.15): NaN and the infinities are
    returned as they are; [round] gives the integer nearest to its argument,
    the larger one when two are equally near.  On doubles all three are
    exact. *)
Definition Math_ceil (x : number) : number :=
  match x with
  | Finite q => Finite (inject_Z (Qceiling q))
  | _ => x
  end.

Definition Math_floor (x : number) : number :=
  match x with
  | Finite q => Finite (inject_Z (Qfloor q))
  | _ => x
  end.

Definition Math_round (x : number) : number :=
  match x with
  | Finite q => Finite (inject_Z (Qfloor (q + (1 # 2))))
  | _ => x
  end.

(** ** Records of the data model *)

Module FunctionContext.
Record t : Type := mk { name : string; isAggregate : bool }.
End FunctionContext.

(** Modelled from the spec: the constants [DG.DEP_TYPE_UNDEFINED] and
    [DG.DEP_TYPE_SPECIAL] are declared outside this file; the type of a
    dependency node is one of Unresolved, Special, Attribute. *)
Inductive DepType : Type :=
| DEP_TYPE_UNDEFINED
| DEP_TYPE_SPECIAL
| DEP_TYPE_ATTRIBUTE.

Module Spec.
Record t : Type := mk { type : DepType; id : string; name : string }.
End Spec.

(** The argument of [registerDependency]; the fields a caller leaves out are
    [None]. *)
Record Dependency : Type := {
  dependentSpec : option Spec.t;
  independentSpec : Spec.t;
  aggFnIndices : option (list nat)
}.

Inductive MaxArgs : Type :=
| Bounded (n : Z)
| Unbounded.                  (* maxArgs:'n' *)

(** An entry of [_fnsProps], [_MathFnProps] or a client's [fnsProps].  A
    metadata table is the map of its own entries: what it inherits from
    [Object.prototype] are functions, which have neither [minArgs] nor
    [isRandom], so that the code treats them as it treats a missing entry
    (a comparison with [undefined] is false, and [undefined] is falsy). *)
Record FnProps : Type := {
  minArgs : Z;
  maxArgs : MaxArgs;
  isRandom : bool;            (* absent reads as false *)
  category : string
}.

Abbreviation propsMap := (gmap string FnProps).

(** The properties of a context that the code reads with [this.get] or
    directly.  A table that is not there ([undefined] or [null]) is [None]. *)
Record FormulaContext : Type := {
  _functionContextStack : list FunctionContext.t;
  eVars : option object;
  vars : option object;
  _fns : option object;
  _fnsProps : option propsMap;
  _MathFnProps : option propsMap;
  fns : option object;
  fnsProps : option propsMap
}.

(** ** Errors and effects *)

(** Modelled from the spec: the classes [DG.VarReferenceError],
    [DG.FuncReferenceError] and [DG.FuncArgsError] are declared outside this
    file; an error carries what its constructor was given (the offending
    name, and for the argument count the declared bounds).  The last four
    are the host's own errors. *)
Inductive error : Type :=
| VarReferenceError (reference : value)       (* new DG.VarReferenceError(x) *)
| FuncReferenceError (reference : value)      (* new DG.FuncReferenceError(x) *)
| FuncArgsError (iName : string) (fArgs : FnProps)
| RangeError                                  (* Invalid array length *)
| TypeError                                   (* property read on undefined/null *)
| ReferenceError (identifier : string)        (* identifier is not defined *)
| SyntaxError.                                (* text that is no program *)

Inductive Result (A : Type) : Type :=
| Ok (a : A)
| Throw (e : error).
Arguments Ok {A} a.
Arguments Throw {A} e.

(** A function application made by the context: [callee.apply(thisArg, args)]. *)
Record Call : Type := {
  callee : func;
  thisArg : object;
  args : list value
}.

(** The context together with what it has done so far: the arguments of the
    [registerDependency] calls, the messages passed to [DG.logError] and the
    functions applied, each oldest first. *)
Record World : Type := {
  self : FormulaContext;
  registered : list Dependency;
  logged : list string;
  applied : list Call
}.

Definition M (A : Type) : Type := World -> Result A * World.

Definition ret {A} (a : A) : M A := fun w => (Ok a, w).

Definition throw {A} (e : error) : M A := fun w => (Throw e, w).

Definition bind {A B} (m : M A) (k : A -> M B) : M B :=
  fun w =>
    match m w with
    | (Ok a, w') => k a w'
    | (Throw e, w') => (Throw e, w')
    end.

Notation "x <- m ;; k" := (bind m (fun x => k))
  (at level 100, m at next level, right associativity).
Notation "m ;; k" := (bind m (fun _ => k))
  (at level 100, right associativity).

Definition getSelf : M FormulaContext := fun w => (Ok (self w), w).

Definition withStack (s : list FunctionContext.t) (w : World) : World :=
  {| self := {| _functionContextStack := s;
                eVars := eVars (self w); vars := vars (self w);
                _fns := _fns (self w); _fnsProps := _fnsProps (self w);
                _MathFnProps := _MathFnProps (self w);
                fns := fns (self w); fnsProps := fnsProps (self w) |};
     registered := registered w; logged := logged w; applied := applied w |}.

Definition setStack (s : list FunctionContext.t) : M unit :=
  fun w => (Ok tt, withStack s w).

Definition withRegistered (d : list Dependency) (w : World) : World :=
  {| self := self w; registered := d; logged := logged w; applied := applied w |}.

Definition withLogged (l : list string) (w : World) : World :=
  {| self := self w; registered := registered w; logged := l; applied := applied w |}.

Definition withApplied (l : list Call) (w : World) : World :=
  {| self := self w; registered := registered w; logged := logged w; applied := l |}.

(** The base class's [registerDependency] does nothing; derived contexts
    override it.  The call and its argument are recorded. *)
Definition registerDependency (iDependency : Dependency) : M unit :=
  fun w => (Ok tt, withRegistered (registered w ++ [iDependency]) w).

Definition logError (msg : string) : M unit :=
  fun w => (Ok tt, withLogged (logged w ++ [msg]) w).

(** ** The function context stack *)

(** [init] *)
Definition init (w : World) : World :=
  withStack [] w.

(** [this._functionContextStack.push(iFunctionContext)] *)
Definition beginFunctionContext (iFunctionContext : FunctionContext.t) : M unit :=
  this <- getSelf ;;
  setStack (_functionContextStack this ++ [iFunctionContext]).

Definition endFunctionContext_message : string :=
  "Error: DG.FormulaContext.endFunctionContext -- attempt to end incorrect function context".

(** [stackSize ? stack[stackSize - 1].name : ''] *)
Definition topName (stack : list FunctionContext.t) : string :=
  match last stack with
  | Some top => FunctionContext.name top
  | None => ""
  end.

(** [-- this._functionContextStack.length]: assigning a length below the
    current one truncates the array; assigning -1 is a RangeError and leaves
    the array as it was. *)
Definition decrementLength (stack : list FunctionContext.t) : M unit :=
  let stackSize := Z.of_nat (length stack) in
  if stackSize - 1 <? 0
  then throw RangeError
  else setStack (take (Z.to_nat (stackSize - 1)) stack).

(** The argument is [None] when the caller passes [undefined] or [null];
    [iFunctionContext && iFunctionContext.name] is then not a string and is
    [===] to no top name. *)
Definition endFunctionContext (iFunctionContext : option FunctionContext.t) : M unit :=
  this <- getSelf ;;
  let endName := FunctionContext.name <$> iFunctionContext in
  let stack := _functionContextStack this in
  if bool_decide (endName = Some (topName stack))
  then decrementLength stack
  else logError endFunctionContext_message.

(** [getAggregateFunctionIndices] of the base class. *)
Definition getAggregateFunctionIndices : M (list nat) := ret [].

(** ** Tables of the base class *)

Definition mkProps (min : Z) (max : Z) (cat : string) : FnProps :=
  {| minArgs := min; maxArgs := Bounded max; isRandom := false; category := cat |}.

(** What a plain object inherits: the function members of
    [Object.prototype] in ECMAScript 5.1 (15.2.4). *)
Definition Object_prototype : object :=
  list_to_map
    ((fun k => (k, VFunction (ObjectFn k))) <$>
     [ "constructor"; "toString"; "toLocaleString"; "valueOf"; "hasOwnProperty";
       "isPrototypeOf"; "propertyIsEnumerable" ]).

(** An object with the given members of its own and [Object.prototype] for
    its prototype, as an object literal makes it: a read finds the own
    member first. *)
Definition plainObject (own : object) : object := own ∪ Object_prototype.

(** The members the literal of [_fns] lists: each a function literal of the
    source. *)
Definition own_fns : object :=
  list_to_map
    ((fun k => (k, VFunction (DGFn k))) <$>
     [ "boolean"; "frac"; "isFinite"; "ln"; "log"; "number"; "random"; "round";
       "string"; "trunc"; "greatCircleDistance"; "secondsToDate"; "month" ]).

(** [_fns] as property reads see it: its own members, and behind them the
    inherited ones. *)
Definition base_fns : object := plainObject own_fns.

Definition base_fnsProps : propsMap :=
  list_to_map
    [ ("boolean", mkProps 1 1 "DG.Formula.FuncCategoryConversion");
      ("frac", mkProps 1 1 "DG.Formula.FuncCategoryArithmetic");
      ("ln", mkProps 1 1 "DG.Formula.FuncCategoryArithmetic");
      ("log", mkProps 1 1 "DG.Formula.FuncCategoryArithmetic");
      ("number", mkProps 1 1 "DG.Formula.FuncCategoryConversion");
      ("random", {| minArgs := 0; maxArgs := Bounded 2; isRandom := true;
                    category := "DG.Formula.FuncCategoryRandom" |});
      ("round", mkProps 1 2 "DG.Formula.FuncCategoryArithmetic");
      ("string", mkProps 1 1 "DG.Formula.FuncCategoryConversion");
      ("trunc", mkProps 1 1 "DG.Formula.FuncCategoryArithmetic");
      ("greatCircleDistance", mkProps 4 4 "DG.Formula.FuncCategoryOther");
      ("secondsToDate", mkProps 1 1 "DG.Formula.FuncCategoryDateTime");
      ("month", mkProps 1 1 "DG.Formula.FuncCategoryDateTime") ].

Definition base_MathFnProps : propsMap :=
  list_to_map
    [ ("abs", mkProps 1 1 "DG.Formula.FuncCategoryArithmetic");
      ("acos", mkProps 1 1 "DG.Formula.FuncCategoryTrigonometric");
      ("asin", mkProps 1 1 "DG.Formula.FuncCategoryTrigonometric");
      ("atan", mkProps 1 1 "DG.Formula.FuncCategoryTrigonometric");
      ("atan2", mkProps 2 2 "DG.Formula.FuncCategoryTrigonometric");
      ("ceil", mkProps 1 1 "DG.Formula.FuncCategoryArithmetic");
      ("cos", mkProps 1 1 "DG.Formula.FuncCategoryTrigonometric");
      ("exp", mkProps 1 1 "DG.Formula.FuncCategoryArithmetic");
      ("floor", mkProps 1 1 "DG.Formula.FuncCategoryArithmetic");
      ("pow", mkProps 2 2 "DG.Formula.FuncCategoryArithmetic");
      ("sin", mkProps 1 1 "DG.Formula.FuncCategoryTrigonometric");
      ("sqrt", mkProps 1 1 "DG.Formula.FuncCategoryArithmetic");
      ("tan", mkProps 1 1 "DG.Formula.FuncCategoryTrigonometric") ].

(** A context as [DG.FormulaContext.create()] leaves it: the prototype's
    tables, an empty stack, and none of [eVars], [vars], [fns], [fnsProps]. *)
Definition base_context : FormulaContext :=
  {| _functionContextStack := [];
     eVars := None; vars := None;
     _fns := Some base_fns; _fnsProps := Some base_fnsProps;
     _MathFnProps := Some base_MathFnProps;
     fns := None; fnsProps := None |}.

Definition fresh (this : FormulaContext) : World :=
  {| self := this; registered := []; logged := []; applied := [] |}.

(** ** Property reads shared by the binding functions *)

(** [o && (o[k] !== undefined)] *)
Definition defines (o : option object) (k : string) : bool :=
  match o with
  | Some t => negb (isUndefined (get t k))
  | None => false
  end.

(** [o && typeof o[k] === 'function'] *)
Definition hasFunction (o : option object) (k : string) : bool :=
  match o with
  | Some t => isFunction (get t k)
  | None => false
  end.

(** The object behind a table property that passed its [o && ...] test. *)
Definition table (o : option object) : object :=
  match o with
  | Some t => t
  | None => ∅
  end.

Definition lift {A} (r : Result A) : M A := fun w => (r, w).

(** [Array.prototype.toString]: the elements joined by commas. *)
Fixpoint join (l : list string) : string :=
  match l with
  | [] => ""
  | [s] => s
  | s :: l' => s +:+ "," +:+ join l'
  end.

(** [checkArgs]: [fArgs = iArgSpecs && iArgSpecs[iName]]; an entry is an
    object and so truthy. *)
Definition checkArgs {A} (iName : string) (iArgs : list A)
    (iArgSpecs : option propsMap) : M unit :=
  match iArgSpecs ≫= (.!! iName) with
  | Some fArgs =>
      if Z.of_nat (length iArgs) <? minArgs fArgs
      then throw (FuncArgsError iName fArgs)
      else ret tt
  | None => ret tt
  end.

(** ** Source text of the emitted code

    The compile path returns JavaScript source text, which
    [createContextFunction] hands to the [Function] constructor.  The text
    is read back here for the expressions [compileVariable] and
    [compileFunction] emit for a name: a reference [x.p.q], or an immediately
    applied function that throws a [DG.VarReferenceError] or
    [DG.FuncReferenceError] built from one argument, itself a reference or a
    single-quoted string literal.  The text is read as ECMAScript 5.1 reads
    the body of a function that is not strict. *)

Fixpoint stripPrefix (p s : string) : option string :=
  match p, s with
  | "", _ => Some s
  | String a p', String b s' => if Ascii.eqb a b then stripPrefix p' s' else None
  | String _ _, "" => None
  end.

Definition stripSuffix (p s : string) : option string :=
  String.rev <$> stripPrefix (String.rev p) (String.rev s).

(** The pieces of [s] between occurrences of [sep]; [cur] is the piece being
    read, backwards. *)
Fixpoint splitOn_go (sep : Ascii.ascii) (cur s : string) : list string :=
  match s with
  | "" => [String.rev cur]
  | String a s' =>
      if Ascii.eqb a sep
      then String.rev cur :: splitOn_go sep "" s'
      else splitOn_go sep (String a cur) s'
  end.

Definition dot : Ascii.ascii := Ascii.ascii_of_N 46.

Definition splitOn (sep : Ascii.ascii) (s : string) : list string :=
  splitOn_go sep "" s.

Definition isDigit (a : Ascii.ascii) : bool :=
  let n := Ascii.N_of_ascii a in (48 <=? n)%N && (n <=? 57)%N.

(** The ASCII letters, [_] and [$]. *)
Definition isIdentifierStart (a : Ascii.ascii) : bool :=
  let n := Ascii.N_of_ascii a in
  (65 <=? n)%N && (n <=? 90)%N || (97 <=? n)%N && (n <=? 122)%N
  || (n =? 95)%N || (n =? 36)%N.

Definition isIdentifierPart (a : Ascii.ascii) : bool :=
  isIdentifierStart a || isDigit a.

(** An IdentifierName (7.6) written in ASCII without escapes: what may follow
    a dot.  Names with other characters are not read. *)
Definition isIdentifierName (s : string) : bool :=
  match s with
  | "" => false
  | String a s' =>
      isIdentifierStart a && forallb isIdentifierPart (String.list_ascii_of_string s')
  end.

(** The reserved words of code that is not strict (7.6.1) other than [this]
    and the literals: none of them is an expression by itself. *)
Definition keywords : list string :=
  [ "break"; "case"; "catch"; "continue"; "debugger"; "default"; "delete"; "do";
    "else"; "finally"; "for"; "function"; "if"; "in"; "instanceof"; "new";
    "return"; "switch"; "throw"; "try"; "typeof"; "var"; "void"; "while"; "with";
    "class"; "const"; "enum"; "export"; "extends"; "import"; "super" ].

(** The reserved words that are literals, with their values. *)
Definition literal (x : string) : option value :=
  if bool_decide (x = "null") then Some VNull
  else if bool_decide (x = "true") then Some (VBoolean true)
  else if bool_decide (x = "false") then Some (VBoolean false)
  else None.

(** The names every function body binds by itself; what they denote depends
    on how the function is called and is not read. *)
Definition boundByCall : list string := [ "this"; "arguments" ].

(** A name that, written as an expression, is a reference to a variable. *)
Definition isIdentifier (x : string) : bool :=
  isIdentifierName x
  && negb (bool_decide (is_Some (literal x)))
  && negb (bool_decide (x ∈ keywords))
  && negb (bool_decide (x ∈ boundByCall)).

Definition isPlainChar (a : Ascii.ascii) : bool :=
  let n := Ascii.N_of_ascii a in
  negb ((n =? 39)%N || (n =? 92)%N || (n =? 10)%N || (n =? 13)%N).

(** ['...'] with neither quote, backslash nor line break inside. *)
Definition stringLiteral (s : string) : option string :=
  inner ← stripPrefix "'" s ≫= stripSuffix "'";
  if forallb isPlainChar (String.list_ascii_of_string inner) then Some inner else None.

(** *** Syntax *)

Inductive primary : Type :=
| Identifier (x : string)
| Literal (v : value).

(** [h.p1.p2...] *)
Inductive reference : Type :=
| Path (h : primary) (props : list string).

Inductive operand : Type :=
| Quoted (s : string)
| Referred (r : reference).

Inductive DGError : Type :=
| VarReference
| FuncReference.

Inductive expression : Type :=
| Read (r : reference)
| ThrowNew (ctor : DGError) (arg : operand).

(** What reading a text gives: its syntax; or the verdict that it is no
    program, for which [new Function] raises a SyntaxError; or nothing, for
    a text outside the fragment read here. *)
Inductive reading (A : Type) : Type :=
| Accepted (a : A)
| Rejected
| Unread.
Arguments Accepted {A} a.
Arguments Rejected {A}.
Arguments Unread {A}.

Definition reading_map {A B} (f : A -> B) (r : reading A) : reading B :=
  match r with
  | Accepted a => Accepted (f a)
  | Rejected => Rejected
  | Unread => Unread
  end.

(** The first name of a reference; [alone] when no property read follows.
    A keyword by itself is no expression; one followed by a dot may be
    ([new.target]) and is not read. *)
Definition classify (x : string) (alone : bool) : reading primary :=
  if negb (isIdentifierName x) then Unread
  else match literal x with
       | Some v => Accepted (Literal v)
       | None =>
           if bool_decide (x ∈ keywords) then (if alone then Rejected else Unread)
           else if bool_decide (x ∈ boundByCall) then Unread
           else Accepted (Identifier x)
       end.

Definition parseReference (src : string) : reading reference :=
  match splitOn dot src with
  | x :: props =>
      if forallb isIdentifierName props
      then reading_map (fun h => Path h props)
             (classify x (bool_decide (props = [])))
      else Unread
  | [] => Unread
  end.

Definition parseOperand (src : string) : reading operand :=
  match stringLiteral src with
  | Some s => Accepted (Quoted s)
  | None => reading_map Referred (parseReference src)
  end.

Definition className (ctor : DGError) : string :=
  match ctor with
  | VarReference => "VarReferenceError"
  | FuncReference => "FuncReferenceError"
  end.

(** [(function(){throw new DG.<class>(<arg>);})()]: the argument's text. *)
Definition thrownArgument (ctor : DGError) (src : string) : option string :=
  stripPrefix ("(function(){throw new DG." +:+ className ctor +:+ "(") src
    ≫= stripSuffix ");})()".

Definition parseExpression (src : string) : reading expression :=
  match thrownArgument VarReference src with
  | Some arg => reading_map (ThrowNew VarReference) (parseOperand arg)
  | None =>
      match thrownArgument FuncReference src with
      | Some arg => reading_map (ThrowNew FuncReference) (parseOperand arg)
      | None => reading_map Read (parseReference src)
      end
  end.

(** The body handed to the [Function] constructor: [return <expression>]. *)
Definition parseFunctionBody (body : string) : reading expression :=
  match stripPrefix "return " body with
  | Some src => parseExpression src
  | None => Unread
  end.

(** [new Function('c', 'e', 'return ' + iExpression)]: the function made,
    known by its body, or [Rejected] when the constructor raises a
    SyntaxError. *)
Definition createContextFunction (iExpression : string) : reading expression :=
  parseFunctionBody ("return " +:+ iExpression).

Definition bindResult {A B} (r : Result A) (k : A -> Result B) : Result B :=
  match r with
  | Ok a => k a
  | Throw e => Throw e
  end.

(** The compile context as the emitted code reads it. *)
Definition contextObject (this : FormulaContext) : value :=
  let prop (o : option object) :=
    match o with Some t => VObject t | None => VUndefined end in
  VObject (list_to_map [ ("eVars", prop (eVars this)); ("vars", prop (vars this));
                         ("_fns", prop (_fns this)); ("fns", prop (fns this)) ]).

(** ** Binding of variables and functions *)

Section Host.

(** The host's [Math] object, and what applying a function object yields:
    a value or an exception of its own. *)
Variable Math : object.
Variable apply : func -> object -> list value -> Result value.

(** The object a property read converts a primitive value or a function to:
    the wrapper of a string, number or boolean with the members it inherits
    (['abc'.length], [(1).toFixed]), a function with its own. *)
Variable ToObject : value -> object.

(** [v[k]] for any value [v].  Reading a property of [undefined] or [null]
    is a TypeError. *)
Definition getProperty (v : value) (k : string) : Result value :=
  match v with
  | VUndefined | VNull => Throw TypeError
  | VObject o => Ok (get o k)
  | VBoolean _ | VNumber _ | VString _ | VFunction _ => Ok (get (ToObject v) k)
  end.

(** [tbl[k].apply(tbl, iArgs)] *)
Definition applyMember (tbl : object) (k : string) (iArgs : list value) : M value :=
  match get tbl k with
  | VFunction f =>
      fun w =>
        (apply f tbl iArgs,
         withApplied
           (applied w ++ [{| callee := f; thisArg := tbl; args := iArgs |}]) w)
  | _ => throw TypeError
  end.

Definition compileVariable (iName : string) : M string :=
  this <- getSelf ;;
  if bool_decide (iName = "pi") || bool_decide (iName = "π") then ret "Math.PI"
  else if bool_decide (iName = "e") then ret "Math.E"
  else if defines (eVars this) iName then ret ("e." +:+ iName)
  else if defines (vars this) iName then ret ("c.vars." +:+ iName)
  else
    registerDependency
      {| dependentSpec := None;
         independentSpec :=
           {| Spec.type := DEP_TYPE_UNDEFINED; Spec.id := iName; Spec.name := iName |};
         aggFnIndices := None |} ;;
    ret ("(function(){throw new DG.VarReferenceError(" +:+ iName +:+ ");})()").

Definition evaluateVariable (iName : string) (iEvalContext : value) : M value :=
  this <- getSelf ;;
  if bool_decide (iName = "pi") || bool_decide (iName = "π") then ret (get Math "PI")
  else if bool_decide (iName = "e") then ret (get Math "E")
  else
    eValue <- (if truthy iEvalContext
               then lift (getProperty iEvalContext iName)
               else ret iEvalContext) ;;
    if negb (isUndefined eValue) then ret eValue
    else if defines (vars this) iName then ret (get (table (vars this)) iName)
    else throw (VarReferenceError (VString iName)).

(** The closure [checkArgsAndRandom] of [compileFunction]; it reads [iArgs]
    and [iAggFnIndices] of the enclosing call. *)
Definition checkArgsAndRandom (iArgs : list string) (iAggFnIndices : list nat)
    (iName : string) (iFnPropsMap : option propsMap) : M unit :=
  let fnProps := iFnPropsMap ≫= (.!! iName) in
  let isRandom := match fnProps with Some p => isRandom p | None => false end in
  checkArgs iName iArgs iFnPropsMap ;;
  if isRandom
  then registerDependency
         {| dependentSpec := None;
            independentSpec :=
              {| Spec.type := DEP_TYPE_SPECIAL; Spec.id := "random";
                 Spec.name := "random" |};
            aggFnIndices := Some iAggFnIndices |}
  else ret tt.

Definition compileFunction (iName : string) (iArgs : list string)
    (iAggFnIndices : list nat) : M string :=
  this <- getSelf ;;
  if hasFunction (_fns this) iName then
    checkArgsAndRandom iArgs iAggFnIndices iName (_fnsProps this) ;;
    ret ("c._fns." +:+ iName +:+ "(" +:+ join iArgs +:+ ")")
  else if isFunction (get Math iName) then
    checkArgsAndRandom iArgs iAggFnIndices iName (_MathFnProps this) ;;
    ret ("Math." +:+ iName +:+ "(" +:+ join iArgs +:+ ")")
  else if hasFunction (fns this) iName then
    checkArgsAndRandom iArgs iAggFnIndices iName (fnsProps this) ;;
    ret ("c.fns." +:+ iName +:+ "(" +:+ join iArgs +:+ ")")
  else
    ret ("(function(){throw new DG.FuncReferenceError(" +:+ iName +:+ ");})()").

Definition evaluateFunction (iName : string) (iArgs : list value) : M value :=
  this <- getSelf ;;
  if hasFunction (_fns this) iName then
    checkArgs iName iArgs (_fnsProps this) ;;
    applyMember (table (_fns this)) iName iArgs
  else if isFunction (get Math iName) then
    checkArgs iName iArgs (_MathFnProps this) ;;
    applyMember Math iName iArgs
  else if hasFunction (fns this) iName then
    checkArgs iName iArgs (fnsProps this) ;;
    applyMember (table (fns this)) iName iArgs
  else
    throw (FuncReferenceError (VString iName)).

(** *** Running a compiled reference *)

(** The properties of the global object other than [Math], visible to the
    emitted code as free identifiers.  The namespace [DG] with its error
    classes is there whatever this map holds. *)
Variable globalObject : object.

(** A name that is read as an identifier, inside [function(c, e) { ... }]:
    a parameter, or a property of the global object, or else not
    defined. *)
Definition resolveIdentifier (c e : value) (x : string) : Result value :=
  if bool_decide (x = "c") then Ok c
  else if bool_decide (x = "e") then Ok e
  else if bool_decide (x = "Math") then Ok (VObject Math)
  else match globalObject !! x with
       | Some v => Ok v
       | None => Throw (ReferenceError x)
       end.

Definition evalPrimary (c e : value) (h : primary) : Result value :=
  match h with
  | Identifier x => resolveIdentifier c e x
  | Literal v => Ok v
  end.

Definition evalReference (c e : value) (r : reference) : Result value :=
  match r with
  | Path h props =>
      foldl (fun r p => bindResult r (fun v => getProperty v p)) (evalPrimary c e h) props
  end.

Definition evalOperand (c e : value) (o : operand) : Result value :=
  match o with
  | Quoted s => Ok (VString s)
  | Referred r => evalReference c e r
  end.

(** [new DG.<class>(v)] *)
Definition construct (ctor : DGError) (v : value) : error :=
  match ctor with
  | VarReference => VarReferenceError v
  | FuncReference => FuncReferenceError v
  end.

Definition evalExpression (c e : value) (body : expression) : Result value :=
  match body with
  | Read r => evalReference c e r
  | ThrowNew ctor arg =>
      bindResult (evalOperand c e arg) (fun v => Throw (construct ctor v))
  end.

(** Calling what [createContextFunction] made with compile context [c] and
    evaluation context [e].  When the constructor rejected the text there is
    no function to call: the SyntaxError it raised is the outcome.  [None]
    when the text is outside the fragment read here. *)
Definition callContextFunction (made : reading expression) (c e : value)
    : option (Result value) :=
  match made with
  | Accepted body => Some (evalExpression c e body)
  | Rejected => Some (Throw SyntaxError)
  | Unread => None
  end.

End Host.

(** ** A standard host *)

(** The [Math] object of an ECMAScript 5.1 host (15.8): its value properties
    as the doubles they are, its native functions, and the members it
    inherits. *)
Definition stdMath : object :=
  plainObject
    (list_to_map
       ([ ("E", VNumber (6121026514868073 # 2251799813685248));
          ("LN10", VNumber (2592480341699211 # 1125899906842624));
          ("LN2", VNumber (6243314768165359 # 9007199254740992));
          ("LOG2E", VNumber (3248660424278399 # 2251799813685248));
          ("LOG10E", VNumber (3911776933737095 # 9007199254740992));
          ("PI", VNumber (884279719003555 # 281474976710656));
          ("SQRT1_2", VNumber (6369051672525773 # 9007199254740992));
          ("SQRT2", VNumber (6369051672525773 # 4503599627370496)) ] ++
        ((fun k => (k, VFunction (MathFn k))) <$>
         [ "abs"; "acos"; "asin"; "atan"; "atan2"; "ceil"; "cos"; "exp"; "floor";
           "log"; "max"; "min"; "pow"; "random"; "round"; "sin"; "sqrt"; "tan" ]))).

(** A host whose functions all return their first argument. *)
Definition firstArg (f : func) (this : object) (l : list value) : Result value :=
  Ok (default VUndefined (head l)).

(** A host without wrapper members: every property of a primitive value
    reads as [undefined]. *)
Definition bareToObject (v : value) : object := ∅.

(** ** Scopes of function names, in the specification's words

    Resolution order, first match wins: the built-in function library, the
    host Math library, the client-supplied function table. *)

Inductive scope : Type := BuiltIn | HostMath | Client.

Definition scopeTable (Math : object) (this : FormulaContext) (sc : scope) : object :=
  match sc with
  | BuiltIn => table (_fns this)
  | HostMath => Math
  | Client => table (fns this)
  end.

Definition inScope (Math : object) (this : FormulaContext) (iName : string)
    (sc : scope) : bool :=
  match sc with
  | BuiltIn => hasFunction (_fns this) iName
  | HostMath => isFunction (get Math iName)
  | Client => hasFunction (fns this) iName
  end.

Definition resolveFunction (Math : object) (this : FormulaContext)
    (iName : string) : option scope :=
  List.find (inScope Math this iName) [BuiltIn; HostMath; Client].

(** The metadata table that goes with a scope, and the entry of a name in
    the table of the scope it resolved in. *)
Definition scopeProps (this : FormulaContext) (sc : scope) : option propsMap :=
  match sc with
  | BuiltIn => _fnsProps this
  | HostMath => _MathFnProps this
  | Client => fnsProps this
  end.

Definition metadata (Math : object) (this : FormulaContext) (iName : string)
    : option FnProps :=
  sc ← resolveFunction Math this iName;
  scopeProps this sc ≫= (.!! iName).

(** How emitted code reaches a scope's table. *)
Definition scopePath (sc : scope) : string :=
  match sc with
  | BuiltIn => "c._fns."
  | HostMath => "Math."
  | Client => "c.fns."
  end.

Definition callCode (sc : scope) (iName : string) (iArgs : list string) : string :=
  scopePath sc +:+ iName +:+ "(" +:+ join iArgs +:+ ")".

Definition randomDependency (iAggFnIndices : list nat) : Dependency :=
  {| dependentSpec := None;
     independentSpec :=
       {| Spec.type := DEP_TYPE_SPECIAL; Spec.id := "random"; Spec.name := "random" |};
     aggFnIndices := Some iAggFnIndices |}.

Definition unresolvedDependency (iName : string) : Dependency :=
  {| dependentSpec := None;
     independentSpec :=
       {| Spec.type := DEP_TYPE_UNDEFINED; Spec.id := iName; Spec.name := iName |};
     aggFnIndices := None |}.

(** ** Vocabulary of the properties *)

(** [begin] for each context of a list in turn, then [end] for each. *)
Fixpoint beginAll (l : list FunctionContext.t) : M unit :=
  match l with
  | [] => ret tt
  | c :: l' => beginFunctionContext c ;; beginAll l'
  end.

Fixpoint endAll (l : list FunctionContext.t) : M unit :=
  match l with
  | [] => ret tt
  | c :: l' => endFunctionContext (Some c) ;; endAll l'
  end.

Definition aggregateContext (n : string) : FunctionContext.t :=
  {| FunctionContext.name := n; FunctionContext.isAggregate := true |}.

Definition plainContext (n : string) : FunctionContext.t :=
  {| FunctionContext.name := n; FunctionContext.isAggregate := false |}.

(** A client's random function, next to the built-in one. *)
Definition dice_context : FormulaContext :=
  {| _functionContextStack := [];
     eVars := None; vars := None;
     _fns := Some base_fns; _fnsProps := Some base_fnsProps;
     _MathFnProps := Some base_MathFnProps;
     fns := Some (plainObject {[ "dice" := VFunction (ClientFn "dice") ]});
     fnsProps := Some {[ "dice" := {| minArgs := 1; maxArgs := Bounded 1;
                                      isRandom := true; category := "Games" |} ]} |}.

(** A context with an instance variable [x] and an environment variable [y],
    and an evaluation context that binds [y]. *)
Definition bound_context : FormulaContext :=
  {| _functionContextStack := [];
     eVars := Some (plainObject {[ "y" := VBoolean true ]});
     vars := Some (plainObject {[ "x" := VNumber 3 ]});
     _fns := Some base_fns; _fnsProps := Some base_fnsProps;
     _MathFnProps := Some base_MathFnProps;
     fns := None; fnsProps := None |}.

Definition bound_evalContext : value :=
  VObject (plainObject {[ "y" := VString "a" ]}).

Definition sameBuiltIns (this this' : FormulaContext) : Prop :=
  _fns this' = _fns this ∧ _fnsProps this' = _fnsProps this.

(** The same context with another client function table and metadata. *)
Definition withClient (f : option object) (fp : option propsMap) (w : World) : World :=
  {| self := {| _functionContextStack := _functionContextStack (self w);
                eVars := eVars (self w); vars := vars (self w);
                _fns := _fns (self w); _fnsProps := _fnsProps (self w);
                _MathFnProps := _MathFnProps (self w);
                fns := f; fnsProps := fp |};
     registered := registered w; logged := logged w; applied := applied w |}.

(** The same context with another metadata table for the host Math scope. *)
Definition withMathFnProps (mp : option propsMap) (w : World) : World :=
  {| self := {| _functionContextStack := _functionContextStack (self w);
                eVars := eVars (self w); vars := vars (self w);
                _fns := _fns (self w); _fnsProps := _fnsProps (self w);
                _MathFnProps := mp;
                fns := fns (self w); fnsProps := fnsProps (self w) |};
     registered := registered w; logged := logged w; applied := applied w |}.

Definition isConstant (iName : string) : bool :=
  bool_decide (iName = "pi") || bool_decide (iName = "π") || bool_decide (iName = "e").

(** Compiling [iName], making the context function from the code and calling
    it yields [expected], and so does evaluating [iName] directly; neither
    changes the context. *)
Definition compiledAsEvaluated (Math : object) (ToObject : value -> object)
    (globalObject : object) (w : World)
    (c e : value) (iName : string) (expected : value) : Prop :=
  exists code : string,
    compileVariable iName w = (Ok code, w)
    ∧ callContextFunction Math ToObject globalObject (createContextFunction code) c e
      = Some (Ok expected)
    ∧ evaluateVariable Math ToObject iName e w = (Ok expected, w).

(** [end] for each argument of a list in turn; [None] stands for a call
    with [undefined] or [null]. *)
Fixpoint endEach (l : list (option FunctionContext.t)) : M unit :=
  match l with
  | [] => ret tt
  | c :: l' => endFunctionContext c ;; endEach l'
  end.

(** The bounds of a metadata entry are sound: none negative, the minimum not
    above the maximum. *)
Definition boundsOk (p : FnProps) : Prop :=
  0 <= minArgs p
  ∧ match maxArgs p with
    | Bounded n => minArgs p <= n
    | Unbounded => True
    end.

(** A client table that holds a function [sin] of its own, next to the one
    of the host's Math object. *)
Definition sine_context : FormulaContext :=
  {| _functionContextStack := [];
     eVars := None; vars := None;
     _fns := Some base_fns; _fnsProps := Some base_fnsProps;
     _MathFnProps := Some base_MathFnProps;
     fns := Some (plainObject {[ "sin" := VFunction (ClientFn "sin") ]});
     fnsProps := None |}.

(** ** The built-in functions of [_fns]

    The bodies of [trunc], [frac] and [round], with the calls they make: to
    the members [ceil], [floor], [round] and [pow] of the host's Math
    object, and to the member [trunc] of the table they are applied to.
    What is not computed here -- a comparison that converts a string or an
    object to a number, a difference or a product that is rounded, the other
    functions -- is left to the host. *)

(** [SC.none(v)]: [v] is [undefined] or [null]. *)
Definition SC_none (v : value) : bool :=
  match v with
  | VUndefined | VNull => true
  | _ => false
  end.

(** The [i]-th argument of a call; a missing one reads as [undefined]. *)
Definition argument (i : nat) (l : list value) : value :=
  match l !! i with
  | Some v => v
  | None => VUndefined
  end.

(** [v < 0] where converting [v] to a number runs no code and reads no
    string: [undefined] converts to NaN, [null] and [false] to 0, [true]
    to 1. *)
Definition lessThanZero (v : value) : option bool :=
  match v with
  | VNumber x => Some (ltZero x)
  | VUndefined | VNull | VBoolean _ => Some false
  | VString _ | VFunction _ | VObject _ => None
  end.

Module Fns.

Section WithHost.

Variable Math : object.
Variable host : func -> object -> list value -> Result value.

(** [Math.k(l)]: the member [k] of the host's Math object, applied to it. *)
Definition Math_call (k : string) (l : list value) : Result value :=
  match get Math k with
  | VFunction f => host f Math l
  | _ => Throw TypeError
  end.

(** [x < 0 ? Math.ceil(x) : Math.floor(x)] *)
Definition trunc_apply (this : object) (l : list value) : Result value :=
  let x := argument 0 l in
  match lessThanZero x with
  | Some true => Math_call "ceil" [x]
  | Some false => Math_call "floor" [x]
  | None => host (DGFn "trunc") this l
  end.

(** [this.trunc(v)] inside a member of [_fns]: the member [trunc] of whatever
    table the function was applied to. *)
Definition this_trunc (this : object) (v : value) : Result value :=
  match get this "trunc" with
  | VFunction (DGFn k) =>
      if bool_decide (k = "trunc") then trunc_apply this [v]
      else host (DGFn k) this [v]
  | VFunction g => host g this [v]
  | _ => Throw TypeError
  end.

(** [x - this.trunc(x)] *)
Definition frac_apply (this : object) (l : list value) : Result value :=
  let x := argument 0 l in
  bindResult (this_trunc this x) (fun t =>
    match x, t with
    | VNumber a, VNumber b =>
        match minus a b with
        | Some d => Ok (VNumber d)
        | None => host (DGFn "frac") this l
        end
    | _, _ => host (DGFn "frac") this l
    end).

(** [Math.round(x)] when [n] is none; otherwise
    [Math.round(npow * x) / npow] with [npow = Math.pow(10, this.trunc(n))],
    computed here when [npow] is 1 and [x] a number: the product is then [x]
    and the quotient the rounded number. *)
Definition round_apply (this : object) (l : list value) : Result value :=
  let x := argument 0 l in
  let n := argument 1 l in
  if SC_none n then Math_call "round" [x]
  else
    bindResult (this_trunc this n) (fun t =>
    bindResult (Math_call "pow" [VNumber 10; t]) (fun npow =>
      match x, npow with
      | VNumber _, VNumber (Finite p) =>
          if Qeq_bool p 1
          then bindResult (Math_call "round" [x]) (fun r =>
                 match r with
                 | VNumber _ => Ok r
                 | _ => host (DGFn "round") this l
                 end)
          else host (DGFn "round") this l
      | _, _ => host (DGFn "round") this l
      end)).

(** [f.apply(this, l)] for a function object [f]. *)
Definition apply (f : func) (this : object) (l : list value) : Result value :=
  match f with
  | DGFn k =>
      if bool_decide (k = "frac") then frac_apply this l
      else if bool_decide (k = "round") then round_apply this l
      else if bool_decide (k = "trunc") then trunc_apply this l
      else host f this l
  | _ => host f this l
  end.

End WithHost.

End Fns.

(** The host's [Math.ceil] and [Math.floor] are the native functions on
    numbers. *)
Definition nativeCeilFloor (Math : object)
    (host : func -> object -> list value -> Result value) : Prop :=
  forall x : number,
    Fns.Math_call Math host "ceil" [VNumber x] = Ok (VNumber (Math_ceil x))
    ∧ Fns.Math_call Math host "floor" [VNumber x] = Ok (VNumber (Math_floor x)).

(** The host's [Math.round] is the native function on numbers, and its
    [Math.pow] takes 10 to the power 0 to 1 (15.8.2.13). *)
Definition nativeRound (Math : object)
    (host : func -> object -> list value -> Result value) : Prop :=
  (forall x : number,
     Fns.Math_call Math host "round" [VNumber x] = Ok (VNumber (Math_round x)))
  ∧ Fns.Math_call Math host "pow" [VNumber 10; VNumber 0] = Ok (VNumber 1).

(** A host with these native functions, all others returning their first
    argument. *)
Definition roundingHost (f : func) (this : object) (l : list value) : Result value :=
  match f, l with
  | MathFn k, [VNumber x] =>
      if bool_decide (k = "ceil") then Ok (VNumber (Math_ceil x))
      else if bool_decide (k = "floor") then Ok (VNumber (Math_floor x))
      else if bool_decide (k = "round") then Ok (VNumber (Math_round x))
      else Ok (VNumber x)
  | MathFn k, [VNumber x; VNumber (Finite y)] =>
      if bool_decide (k = "pow") && Qeq_bool y 0 then Ok (VNumber 1)
      else Ok (VNumber x)
  | _, _ => Ok (default VUndefined (head l))
  end.

(** A context whose [_fns] and [_fnsProps] are the base class's. *)
Definition hasBaseFns (this : FormulaContext) : Prop :=
  _fns this = Some base_fns ∧ _fnsProps this = Some base_fnsProps.

(** The context's record of one application of a built-in function to its
    table. *)
Definition applying (w : World) (k : string) (l : list value) : World :=
  withApplied
    (applied w ++ [{| callee := DGFn k; thisArg := base_fns; args := l |}]) w.

(** The digits argument of [round] is absent, none, or a number strictly
    between -1 and 1. *)
Definition noDigits (rest : list value) : Prop :=
  match rest with
  | [] => True
  | n :: _ => SC_none n = true ∨ exists k : Q, n = VNumber k ∧ (-1 < k)%Q ∧ (k < 1)%Q
  end.

(** A client table that holds the built-in [frac] and [round] under names of
    its own. *)
Definition borrowing_context : FormulaContext :=
  {| _functionContextStack := [];
     eVars := None; vars := None;
     _fns := Some base_fns; _fnsProps := Some base_fnsProps;
     _MathFnProps := Some base_MathFnProps;
     fns := Some (plainObject {[ "fractional" := VFunction (DGFn "frac");
                                 "roundTo" := VFunction (DGFn "round") ]});
     fnsProps := None |}.

(** A name is bound when it is a constant or one of the variable tables
    defines it. *)
Definition isBound (this : FormulaContext) (iName : string) : bool :=
  isConstant iName || defines (eVars this) iName || defines (vars this) iName.

(** [compileVariable] for each name of a list in turn, as when the
    identifiers of an expression are compiled one after the other. *)
Fixpoint compileVariables (names : list string) : M (list string) :=
  match names with
  | [] => ret []
  | iName :: names' =>
      code <- compileVariable iName ;;
      codes <- compileVariables names' ;;
      ret (code :: codes)
  end.

(** ** The function context stack: properties *)

Lemma withStack_same (w : World) :
  withStack (_functionContextStack (self w)) w = w.
Proof. by destruct w as [[] ? ? ?]. Qed.

Lemma withStack_twice (s s' : list FunctionContext.t) (w : World) :
  withStack s (withStack s' w) = withStack s w.
Proof. done. Qed.

Lemma topName_snoc (s : list FunctionContext.t) (top : FunctionContext.t) :
  topName (s ++ [top]) = FunctionContext.name top.
Proof. unfold topName. by rewrite last_snoc. Qed.

Lemma decrementLength_snoc (s : list FunctionContext.t) (top : FunctionContext.t)
    (w : World) :
  decrementLength (s ++ [top]) w = (Ok tt, withStack s w).
Proof.
  unfold decrementLength, setStack.
  rewrite length_app, Nat.add_1_r. cbn [length].
  destruct (Z.ltb_spec (Z.of_nat (S (length s)) - 1) 0) as [H|_]; [lia|].
  replace (Z.to_nat (Z.of_nat (S (length s)) - 1)) with (length s) by lia.
  by rewrite take_app_length.
Qed.

Lemma names_rev (l : list FunctionContext.t) :
  FunctionContext.name <$> rev l = rev (FunctionContext.name <$> l).
Proof.
  induction l as [|c l IH]; [done|].
  cbn [rev]. rewrite fmap_app, IH. done.
Qed.

(** Ending the context on top of a non-empty stack pops it. *)
Lemma endFunctionContext_top (s : list FunctionContext.t)
    (top iFunctionContext : FunctionContext.t) (w : World) :
  _functionContextStack (self w) = s ++ [top] ->
  FunctionContext.name iFunctionContext = FunctionContext.name top ->
  endFunctionContext (Some iFunctionContext) w = (Ok tt, withStack s w).
Proof.
  intros Hs Hn. unfold endFunctionContext, bind, getSelf.
  rewrite Hs, topName_snoc. cbn [fmap option_fmap option_map].
  rewrite Hn, bool_decide_eq_true_2 by done.
  apply decrementLength_snoc.
Qed.

(** Ending with a name other than the top name only logs. *)
Lemma endFunctionContext_mismatch (iFunctionContext : option FunctionContext.t)
    (w : World) :
  FunctionContext.name <$> iFunctionContext
    ≠ Some (topName (_functionContextStack (self w))) ->
  endFunctionContext iFunctionContext w
    = (Ok tt, withLogged (logged w ++ [endFunctionContext_message]) w).
Proof.
  intros Hne. unfold endFunctionContext, bind, getSelf.
  by rewrite bool_decide_eq_false_2.
Qed.

Lemma beginAll_pushes (l : list FunctionContext.t) (w : World) :
  beginAll l w = (Ok tt, withStack (_functionContextStack (self w) ++ l) w).
Proof.
  revert w. induction l as [|c l IH]; intros w; cbn [beginAll].
  - unfold ret. by rewrite app_nil_r, withStack_same.
  - unfold bind at 1, beginFunctionContext, bind, getSelf, setStack.
    rewrite IH. cbn. by rewrite <- app_assoc.
Qed.

Lemma endAll_pops (popped ended : list FunctionContext.t) :
  forall (s : list FunctionContext.t) (w : World),
    FunctionContext.name <$> ended = FunctionContext.name <$> popped ->
    _functionContextStack (self w) = s ++ rev popped ->
    endAll ended w = (Ok tt, withStack s w).
Proof.
  revert ended.
  induction popped as [|c popped IH]; intros [|e ended] s w Hn Hs;
    try discriminate; cbn [endAll].
  - cbn in Hs. rewrite app_nil_r in Hs. subst s. unfold ret.
    by rewrite withStack_same.
  - cbn in Hn. injection Hn as Hc Hn.
    cbn [rev] in Hs. rewrite app_assoc in Hs.
    unfold bind. rewrite (endFunctionContext_top _ _ _ _ Hs Hc).
    rewrite (IH ended s (withStack (s ++ rev popped) w) Hn eq_refl).
    done.
Qed.

(** Apart from one input the stack keeps its discipline.  Beginning the
    contexts [begun] and then ending contexts whose names are those of
    [begun] in reverse order returns normally and leaves the context exactly
    as it was: from an empty stack the stack is empty again, and nothing has
    been logged.  And ending with a context (or with none) whose name is not
    [===] to the name the code compares it with -- the top entry's, or the
    empty string when the stack is empty -- returns normally, leaves the
    stack unchanged and logs the violation once. *)
Lemma function_context_stack_balanced
    (w : World) (begun ended : list FunctionContext.t)
    (iFunctionContext : option FunctionContext.t) :
  FunctionContext.name <$> ended = rev (FunctionContext.name <$> begun) ->
  FunctionContext.name <$> iFunctionContext
    ≠ Some (topName (_functionContextStack (self w))) ->
  (beginAll begun ;; endAll ended) w = (Ok tt, w)
  ∧ (let w' := snd ((beginAll begun ;; endAll ended) (init w)) in
     _functionContextStack (self w') = [] ∧ logged w' = logged w)
  ∧ (let r := endFunctionContext iFunctionContext w in
     fst r = Ok tt
     ∧ _functionContextStack (self (snd r)) = _functionContextStack (self w)
     ∧ logged (snd r) = logged w ++ [endFunctionContext_message]).
Proof.
  intros Hnames Hmismatch.
  assert (Hrun : forall w0, (beginAll begun ;; endAll ended) w0 = (Ok tt, w0)).
  { intros w0. unfold bind. rewrite beginAll_pushes.
    rewrite (endAll_pops (rev begun) ended (_functionContextStack (self w0))).
    - by rewrite withStack_twice, withStack_same.
    - by rewrite Hnames, names_rev.
    - by rewrite rev_involutive. }
  split; [apply Hrun|]. split.
  - by rewrite Hrun.
  - by rewrite endFunctionContext_mismatch.
Qed.

(** C7, at the input where it fails: a context just initialised, whose stack
    is empty, ended with a function context named by the empty string.  The
    stack has no top entry for the name to match, so the claim has the call
    log the violation and return; the code compares the name with the empty
    string it substitutes for the missing top name, takes the pop branch and
    raises a RangeError, with nothing logged.  On the same stack every other
    name, and no context at all, is logged and the call returns: the
    recovery is there and misses this one name. *)
Theorem endFunctionContext_empty_name_on_empty_stack :
  let w := init (fresh base_context) in
  let r := endFunctionContext (Some (plainContext "")) w in
  _functionContextStack (self w) = []
  ∧ last (_functionContextStack (self w)) = None
  ∧ r = (Throw RangeError, w)
  ∧ fst r ≠ Ok tt
  ∧ logged (snd r) = []
  ∧ (forall (n : string) (isAgg : bool),
       n ≠ "" ->
       endFunctionContext
         (Some {| FunctionContext.name := n; FunctionContext.isAggregate := isAgg |}) w
       = (Ok tt, withLogged [endFunctionContext_message] w))
  ∧ endFunctionContext None w = (Ok tt, withLogged [endFunctionContext_message] w).
Proof.
  intros w r.
  split; [reflexivity|]. split; [reflexivity|]. split; [reflexivity|].
  split; [discriminate|]. split; [reflexivity|]. split.
  - intros n isAgg Hn. rewrite endFunctionContext_mismatch; [reflexivity|].
    cbn. intros H. injection H as H. done.
  - by rewrite endFunctionContext_mismatch.
Qed.

(** C10.  The pop branch of [endFunctionContext].  On an empty stack the top
    name is the empty string, so ending a context named by the empty string
    takes the matching branch, decrements the length to -1 and raises a
    RangeError: nothing is logged and the stack stays empty.  On a stack with
    at least one entry, ending a context named like the top entry removes
    exactly that entry and leaves the rest. *)
Theorem endFunctionContext_pop_branch
    (w : World) (s : list FunctionContext.t) (top : FunctionContext.t)
    (isAgg : bool) :
  topName [] = ""
  ∧ endFunctionContext
      (Some {| FunctionContext.name := ""; FunctionContext.isAggregate := isAgg |})
      (withStack [] w)
    = (Throw RangeError, withStack [] w)
  ∧ endFunctionContext
      (Some {| FunctionContext.name := FunctionContext.name top;
               FunctionContext.isAggregate := isAgg |})
      (withStack (s ++ [top]) w)
    = (Ok tt, withStack s w).
Proof.
  split; [done|]. split.
  - reflexivity.
  - by rewrite (endFunctionContext_top s top).
Qed.

(** ** Function binding: the code against the resolution order *)

Lemma resolveFunction_spec (Math : object) (this : FormulaContext) (iName : string) :
  resolveFunction Math this iName
  = if hasFunction (_fns this) iName then Some BuiltIn
    else if isFunction (get Math iName) then Some HostMath
    else if hasFunction (fns this) iName then Some Client
    else None.
Proof.
  unfold resolveFunction. cbn [List.find inScope].
  by repeat case_match.
Qed.

Lemma resolveFunction_inScope (Math : object) (this : FormulaContext)
    (iName : string) (sc : scope) :
  resolveFunction Math this iName = Some sc ->
  exists f, get (scopeTable Math this sc) iName = VFunction f.
Proof.
  rewrite resolveFunction_spec. unfold hasFunction, isFunction, scopeTable, table.
  intros H. repeat case_match; simplify_eq; eauto.
Qed.

Lemma compileFunction_resolved (Math : object) (w : World) (iName : string)
    (iArgs : list string) (iAggFnIndices : list nat) (sc : scope) :
  resolveFunction Math (self w) iName = Some sc ->
  compileFunction Math iName iArgs iAggFnIndices w
  = (checkArgsAndRandom iArgs iAggFnIndices iName (scopeProps (self w) sc) ;;
     ret (callCode sc iName iArgs)) w.
Proof.
  rewrite resolveFunction_spec. intros H.
  unfold compileFunction. unfold bind at 1. unfold getSelf.
  repeat case_match; simplify_eq; reflexivity.
Qed.

Lemma compileFunction_unresolved (Math : object) (w : World) (iName : string)
    (iArgs : list string) (iAggFnIndices : list nat) :
  resolveFunction Math (self w) iName = None ->
  compileFunction Math iName iArgs iAggFnIndices w
  = (Ok ("(function(){throw new DG.FuncReferenceError(" +:+ iName +:+ ");})()"), w).
Proof.
  rewrite resolveFunction_spec. intros H.
  unfold compileFunction. unfold bind at 1. unfold getSelf.
  repeat case_match; simplify_eq; reflexivity.
Qed.

Lemma evaluateFunction_resolved (Math : object)
    (apply : func -> object -> list value -> Result value) (w : World)
    (iName : string) (iArgs : list value) (sc : scope) :
  resolveFunction Math (self w) iName = Some sc ->
  evaluateFunction Math apply iName iArgs w
  = (checkArgs iName iArgs (scopeProps (self w) sc) ;;
     applyMember apply (scopeTable Math (self w) sc) iName iArgs) w.
Proof.
  rewrite resolveFunction_spec. intros H.
  unfold evaluateFunction. unfold bind at 1. unfold getSelf.
  repeat case_match; simplify_eq; reflexivity.
Qed.

Lemma evaluateFunction_unresolved (Math : object)
    (apply : func -> object -> list value -> Result value) (w : World)
    (iName : string) (iArgs : list value) :
  resolveFunction Math (self w) iName = None ->
  evaluateFunction Math apply iName iArgs w
  = (Throw (FuncReferenceError (VString iName)), w).
Proof.
  rewrite resolveFunction_spec. intros H.
  unfold evaluateFunction. unfold bind at 1. unfold getSelf.
  repeat case_match; simplify_eq; reflexivity.
Qed.

(** *** The argument check *)

Lemma checkArgs_below {A} (iName : string) (iArgs : list A)
    (iArgSpecs : option propsMap) (p : FnProps) (w : World) :
  iArgSpecs ≫= (.!! iName) = Some p ->
  Z.of_nat (length iArgs) < minArgs p ->
  checkArgs iName iArgs iArgSpecs w = (Throw (FuncArgsError iName p), w).
Proof.
  intros Hp Hlt. unfold checkArgs. rewrite Hp.
  by destruct (Z.ltb_spec (Z.of_nat (length iArgs)) (minArgs p)) as [_|?]; [|lia].
Qed.

Lemma checkArgs_enough {A} (iName : string) (iArgs : list A)
    (iArgSpecs : option propsMap) (p : FnProps) (w : World) :
  iArgSpecs ≫= (.!! iName) = Some p ->
  minArgs p <= Z.of_nat (length iArgs) ->
  checkArgs iName iArgs iArgSpecs w = (Ok tt, w).
Proof.
  intros Hp Hle. unfold checkArgs. rewrite Hp.
  by destruct (Z.ltb_spec (Z.of_nat (length iArgs)) (minArgs p)) as [?|_]; [lia|].
Qed.

Lemma checkArgs_no_entry {A} (iName : string) (iArgs : list A)
    (iArgSpecs : option propsMap) (w : World) :
  iArgSpecs ≫= (.!! iName) = None ->
  checkArgs iName iArgs iArgSpecs w = (Ok tt, w).
Proof. intros Hp. unfold checkArgs. by rewrite Hp. Qed.

Lemma metadata_resolved (Math : object) (this : FormulaContext) (iName : string)
    (sc : scope) :
  resolveFunction Math this iName = Some sc ->
  metadata Math this iName = scopeProps this sc ≫= (.!! iName).
Proof. intros H. unfold metadata. by rewrite H. Qed.

Lemma metadata_Some (Math : object) (this : FormulaContext) (iName : string)
    (p : FnProps) :
  metadata Math this iName = Some p ->
  exists sc, resolveFunction Math this iName = Some sc
             ∧ scopeProps this sc ≫= (.!! iName) = Some p.
Proof.
  unfold metadata. destruct (resolveFunction Math this iName) as [sc|]; [|done].
  intros H. by exists sc.
Qed.

Lemma applyMember_function
    (apply : func -> object -> list value -> Result value) (tbl : object)
    (k : string) (iArgs : list value) (f : func) (w : World) :
  get tbl k = VFunction f ->
  applyMember apply tbl k iArgs w
  = (apply f tbl iArgs,
     withApplied (applied w ++ [{| callee := f; thisArg := tbl; args := iArgs |}]) w).
Proof. intros H. unfold applyMember. by rewrite H. Qed.

(** C4.  A name that resolves in a scope whose metadata table declares
    [minArgs] for it, bound with fewer arguments than that: on the compile
    path and on the evaluate path alike a [FuncArgsError] naming the function
    and its declared bounds is raised, and the context is as before -- no
    call code has been returned, no function applied, nothing registered. *)
Theorem arity_error_below_minimum
    (Math : object) (apply : func -> object -> list value -> Result value)
    (w : World) (iName : string) (compiledArgs : list string)
    (evaluatedArgs : list value) (iAggFnIndices : list nat) (p : FnProps) :
  metadata Math (self w) iName = Some p ->
  Z.of_nat (length compiledArgs) < minArgs p ->
  Z.of_nat (length evaluatedArgs) < minArgs p ->
  compileFunction Math iName compiledArgs iAggFnIndices w
    = (Throw (FuncArgsError iName p), w)
  ∧ evaluateFunction Math apply iName evaluatedArgs w
    = (Throw (FuncArgsError iName p), w).
Proof.
  intros Hmeta Hc He.
  destruct (metadata_Some _ _ _ _ Hmeta) as (sc & Hsc & Hp).
  split.
  - rewrite (compileFunction_resolved _ _ _ _ _ _ Hsc).
    unfold checkArgsAndRandom, bind.
    by rewrite (checkArgs_below _ _ _ _ _ Hp Hc).
  - rewrite (evaluateFunction_resolved _ _ _ _ _ _ Hsc).
    unfold bind.
    by rewrite (checkArgs_below _ _ _ _ _ Hp He).
Qed.

Lemma arity_error_below_minimum_witness :
  let p := mkProps 4 4 "DG.Formula.FuncCategoryOther" in
  let numbers := [VNumber 0; VNumber 0; VNumber 90] in
  metadata stdMath (self (fresh base_context)) "greatCircleDistance" = Some p
  ∧ Z.of_nat (length ["0"; "0"; "90"]) < minArgs p
  ∧ Z.of_nat (length numbers) < minArgs p
  ∧ compileFunction stdMath "greatCircleDistance" ["0"; "0"; "90"] []
      (fresh base_context)
    = (Throw (FuncArgsError "greatCircleDistance" p), fresh base_context)
  ∧ evaluateFunction stdMath firstArg "greatCircleDistance" numbers
      (fresh base_context)
    = (Throw (FuncArgsError "greatCircleDistance" p), fresh base_context).
Proof.
  intros p numbers.
  assert (Hm : metadata stdMath (self (fresh base_context)) "greatCircleDistance"
               = Some p) by (vm_compute; reflexivity).
  assert (Hc : Z.of_nat (length ["0"; "0"; "90"]) < minArgs p) by (simpl; lia).
  assert (He : Z.of_nat (length numbers) < minArgs p) by (simpl; lia).
  split; [exact Hm|]. split; [exact Hc|]. split; [exact He|].
  exact (arity_error_below_minimum stdMath firstArg (fresh base_context)
           "greatCircleDistance" ["0"; "0"; "90"] numbers [] p Hm Hc He).
Defined.

(** C5.  A name that resolves in a scope whose metadata table declares
    [minArgs] for it, bound with at least that many arguments -- however
    many, [maxArgs] is not looked at: compiling returns the call code of the
    resolved scope, and evaluating applies the resolved function to the
    arguments and returns what it returns.  No [FuncArgsError] comes from
    the core on either path. *)
Theorem arity_only_minimum_enforced
    (Math : object) (apply : func -> object -> list value -> Result value)
    (w : World) (iName : string) (compiledArgs : list string)
    (evaluatedArgs : list value) (iAggFnIndices : list nat) (p : FnProps) :
  metadata Math (self w) iName = Some p ->
  minArgs p <= Z.of_nat (length compiledArgs) ->
  minArgs p <= Z.of_nat (length evaluatedArgs) ->
  exists (sc : scope) (f : func),
    resolveFunction Math (self w) iName = Some sc
    ∧ get (scopeTable Math (self w) sc) iName = VFunction f
    ∧ fst (compileFunction Math iName compiledArgs iAggFnIndices w)
      = Ok (callCode sc iName compiledArgs)
    ∧ evaluateFunction Math apply iName evaluatedArgs w
      = (apply f (scopeTable Math (self w) sc) evaluatedArgs,
         withApplied
           (applied w ++ [{| callee := f; thisArg := scopeTable Math (self w) sc;
                             args := evaluatedArgs |}]) w).
Proof.
  intros Hmeta Hc He.
  destruct (metadata_Some _ _ _ _ Hmeta) as (sc & Hsc & Hp).
  destruct (resolveFunction_inScope _ _ _ _ Hsc) as [f Hf].
  exists sc, f. split; [done|]. split; [done|]. split.
  - rewrite (compileFunction_resolved _ _ _ _ _ _ Hsc).
    unfold checkArgsAndRandom, bind.
    rewrite (checkArgs_enough _ _ _ _ _ Hp Hc).
    by destruct (match _ with Some _ => _ | None => _ end).
  - rewrite (evaluateFunction_resolved _ _ _ _ _ _ Hsc).
    unfold bind.
    rewrite (checkArgs_enough _ _ _ _ _ Hp He).
    by apply applyMember_function.
Qed.

Lemma arity_only_minimum_enforced_witness :
  let p := mkProps 1 2 "DG.Formula.FuncCategoryArithmetic" in
  let numbers := [VNumber 3; VNumber 2; VNumber 1; VNumber 0] in
  metadata stdMath (self (fresh base_context)) "round" = Some p
  ∧ maxArgs p = Bounded 2
  ∧ minArgs p <= Z.of_nat (length ["3"; "2"; "1"; "0"])
  ∧ minArgs p <= Z.of_nat (length numbers)
  ∧ exists (sc : scope) (f : func),
      resolveFunction stdMath (self (fresh base_context)) "round" = Some sc
      ∧ get (scopeTable stdMath (self (fresh base_context)) sc) "round" = VFunction f
      ∧ fst (compileFunction stdMath "round" ["3"; "2"; "1"; "0"] []
               (fresh base_context))
        = Ok (callCode sc "round" ["3"; "2"; "1"; "0"])
      ∧ evaluateFunction stdMath firstArg "round" numbers (fresh base_context)
        = (firstArg f (scopeTable stdMath (self (fresh base_context)) sc) numbers,
           withApplied
             (applied (fresh base_context)
              ++ [{| callee := f;
                     thisArg := scopeTable stdMath (self (fresh base_context)) sc;
                     args := numbers |}])
             (fresh base_context)).
Proof.
  intros p numbers.
  assert (Hm : metadata stdMath (self (fresh base_context)) "round" = Some p)
    by (vm_compute; reflexivity).
  assert (Hc : minArgs p <= Z.of_nat (length ["3"; "2"; "1"; "0"])) by (simpl; lia).
  assert (He : minArgs p <= Z.of_nat (length numbers)) by (simpl; lia).
  split; [exact Hm|]. split; [reflexivity|]. split; [exact Hc|]. split; [exact He|].
  exact (arity_only_minimum_enforced stdMath firstArg (fresh base_context)
           "round" ["3"; "2"; "1"; "0"] numbers [] p Hm Hc He).
Defined.

(** C9.  A name that resolves in a scope whose metadata table has no entry
    for it is bound without any argument check: with any arguments, none
    included, compiling returns the call code and leaves the context as it
    was, and evaluating applies the function.  The built-in [isFinite] is
    such a name on every host: it is a member of [_fns] and has no entry in
    [_fnsProps]. *)
Theorem no_metadata_no_arity_check
    (Math : object) (apply : func -> object -> list value -> Result value)
    (w : World) (iName : string) (compiledArgs : list string)
    (evaluatedArgs : list value) (iAggFnIndices : list nat) (sc : scope) :
  resolveFunction Math (self w) iName = Some sc ->
  metadata Math (self w) iName = None ->
  (exists f : func,
     get (scopeTable Math (self w) sc) iName = VFunction f
     ∧ compileFunction Math iName compiledArgs iAggFnIndices w
       = (Ok (callCode sc iName compiledArgs), w)
     ∧ evaluateFunction Math apply iName evaluatedArgs w
       = (apply f (scopeTable Math (self w) sc) evaluatedArgs,
          withApplied
            (applied w ++ [{| callee := f; thisArg := scopeTable Math (self w) sc;
                              args := evaluatedArgs |}]) w))
  ∧ resolveFunction Math base_context "isFinite" = Some BuiltIn
  ∧ metadata Math base_context "isFinite" = None.
Proof.
  intros Hsc Hmeta.
  rewrite (metadata_resolved _ _ _ _ Hsc) in Hmeta.
  destruct (resolveFunction_inScope _ _ _ _ Hsc) as [f Hf].
  split; [exists f; split; [done|]; split|].
  - rewrite (compileFunction_resolved _ _ _ _ _ _ Hsc).
    unfold checkArgsAndRandom, bind.
    rewrite (checkArgs_no_entry _ _ _ _ Hmeta), Hmeta. done.
  - rewrite (evaluateFunction_resolved _ _ _ _ _ _ Hsc).
    unfold bind. rewrite (checkArgs_no_entry _ _ _ _ Hmeta).
    by apply applyMember_function.
  - assert (Hr : resolveFunction Math base_context "isFinite" = Some BuiltIn)
      by (rewrite resolveFunction_spec; reflexivity).
    split; [exact Hr|].
    rewrite (metadata_resolved _ _ _ _ Hr). reflexivity.
Qed.

Lemma no_metadata_no_arity_check_witness :
  resolveFunction stdMath (self (fresh base_context)) "isFinite" = Some BuiltIn
  ∧ metadata stdMath (self (fresh base_context)) "isFinite" = None
  ∧ exists f : func,
      get (scopeTable stdMath (self (fresh base_context)) BuiltIn) "isFinite"
        = VFunction f
      ∧ compileFunction stdMath "isFinite" [] [] (fresh base_context)
        = (Ok (callCode BuiltIn "isFinite" []), fresh base_context)
      ∧ evaluateFunction stdMath firstArg "isFinite" [] (fresh base_context)
        = (firstArg f (scopeTable stdMath (self (fresh base_context)) BuiltIn) [],
           withApplied
             (applied (fresh base_context)
              ++ [{| callee := f;
                     thisArg := scopeTable stdMath (self (fresh base_context)) BuiltIn;
                     args := [] |}])
             (fresh base_context)).
Proof.
  assert (Hr : resolveFunction stdMath (self (fresh base_context)) "isFinite"
               = Some BuiltIn) by (vm_compute; reflexivity).
  assert (Hm : metadata stdMath (self (fresh base_context)) "isFinite" = None)
    by (vm_compute; reflexivity).
  split; [exact Hr|]. split; [exact Hm|].
  exact (proj1 (no_metadata_no_arity_check stdMath firstArg (fresh base_context)
                  "isFinite" [] [] [] BuiltIn Hr Hm)).
Defined.

(** *** The random dependency *)

Lemma evaluateFunction_registers_nothing
    (Math : object) (apply : func -> object -> list value -> Result value)
    (w : World) (iName : string) (iArgs : list value) :
  registered (snd (evaluateFunction Math apply iName iArgs w)) = registered w.
Proof.
  destruct (resolveFunction Math (self w) iName) as [sc|] eqn:Hsc.
  - rewrite (evaluateFunction_resolved _ _ _ _ _ _ Hsc).
    unfold bind, checkArgs, applyMember, ret, throw.
    by repeat case_match; simplify_eq.
  - by rewrite (evaluateFunction_unresolved _ _ _ _ _ Hsc).
Qed.

(** C2, as the code has it.  A name that resolves in a scope whose metadata
    entry for it is flagged [isRandom], compiled with at least [minArgs]
    arguments: [compileFunction] returns the call code and registers exactly
    one dependency, with independent spec [{Special, random, random}] and the
    [iAggFnIndices] it was given, whichever scope the name resolved in.
    [evaluateFunction] registers no dependency, for any name. *)
Theorem random_dependency_on_compile
    (Math : object) (apply : func -> object -> list value -> Result value)
    (w : World) (iName : string) (compiledArgs : list string)
    (evaluatedArgs : list value) (iAggFnIndices : list nat) (p : FnProps) :
  metadata Math (self w) iName = Some p ->
  isRandom p = true ->
  minArgs p <= Z.of_nat (length compiledArgs) ->
  (exists sc : scope,
     resolveFunction Math (self w) iName = Some sc
     ∧ compileFunction Math iName compiledArgs iAggFnIndices w
       = (Ok (callCode sc iName compiledArgs),
          withRegistered (registered w ++ [randomDependency iAggFnIndices]) w))
  ∧ registered (snd (evaluateFunction Math apply iName evaluatedArgs w))
    = registered w.
Proof.
  intros Hmeta Hrandom Hc.
  destruct (metadata_Some _ _ _ _ Hmeta) as (sc & Hsc & Hp).
  split; [exists sc; split; [done|]|].
  - rewrite (compileFunction_resolved _ _ _ _ _ _ Hsc).
    unfold checkArgsAndRandom, bind.
    rewrite (checkArgs_enough _ _ _ _ _ Hp Hc), Hp, Hrandom. done.
  - apply evaluateFunction_registers_nothing.
Qed.

Lemma random_dependency_on_compile_witness :
  let p := {| minArgs := 1; maxArgs := Bounded 1; isRandom := true;
              category := "Games" |} in
  let w := fresh dice_context in
  metadata stdMath (self w) "dice" = Some p
  ∧ isRandom p = true
  ∧ minArgs p <= Z.of_nat (length ["6"])
  ∧ (exists sc : scope,
       resolveFunction stdMath (self w) "dice" = Some sc
       ∧ compileFunction stdMath "dice" ["6"] [2%nat; 0%nat] w
         = (Ok (callCode sc "dice" ["6"]),
            withRegistered (registered w ++ [randomDependency [2%nat; 0%nat]]) w)).
Proof.
  intros p w.
  assert (Hm : metadata stdMath (self w) "dice" = Some p) by (vm_compute; reflexivity).
  assert (Hr : isRandom p = true) by reflexivity.
  assert (Hc : minArgs p <= Z.of_nat (length ["6"])) by (simpl; lia).
  split; [exact Hm|]. split; [exact Hr|]. split; [exact Hc|].
  exact (proj1 (random_dependency_on_compile stdMath firstArg w "dice" ["6"]
                  [VNumber 6] [2%nat; 0%nat] p Hm Hr Hc)).
Defined.

(** C2 as stated fails on the evaluate path: evaluating [random()] in a base
    context applies the built-in function, which is flagged [isRandom], and
    registers nothing. *)
Lemma random_dependency_missing_on_evaluate :
  let w := fresh base_context in
  let r := evaluateFunction stdMath firstArg "random" [] w in
  (exists p : FnProps,
     metadata stdMath (self w) "random" = Some p ∧ isRandom p = true)
  ∧ callee <$> applied (snd r) = [DGFn "random"]
  ∧ registered (snd r) = []
  ∧ ¬ (exists d : Dependency, registered (snd r) = registered w ++ [d]).
Proof.
  intros w r.
  assert (Hreg : registered (snd r) = []) by (vm_compute; reflexivity).
  split; [|split; [|split]].
  - eexists. split; [vm_compute; reflexivity|reflexivity].
  - vm_compute. reflexivity.
  - exact Hreg.
  - intros [d Hd]. rewrite Hreg in Hd. cbn in Hd. discriminate Hd.
Qed.

(** *** Resolution order *)

Lemma builtIn_result_independent
    (Math Math' : object) (apply : func -> object -> list value -> Result value)
    (w w' : World) (iName : string) (compiledArgs : list string)
    (evaluatedArgs : list value) (iAggFnIndices : list nat) :
  sameBuiltIns (self w) (self w') ->
  hasFunction (_fns (self w)) iName = true ->
  fst (compileFunction Math iName compiledArgs iAggFnIndices w)
    = fst (compileFunction Math' iName compiledArgs iAggFnIndices w')
  ∧ fst (evaluateFunction Math apply iName evaluatedArgs w)
    = fst (evaluateFunction Math' apply iName evaluatedArgs w').
Proof.
  intros [Hfns Hprops] Hin.
  assert (Hsc : resolveFunction Math (self w) iName = Some BuiltIn)
    by (rewrite resolveFunction_spec; by rewrite Hin).
  assert (Hsc' : resolveFunction Math' (self w') iName = Some BuiltIn)
    by (rewrite resolveFunction_spec; by rewrite Hfns, Hin).
  split.
  - rewrite (compileFunction_resolved _ _ _ _ _ _ Hsc),
      (compileFunction_resolved _ _ _ _ _ _ Hsc').
    cbn [scopeProps]. rewrite Hprops.
    unfold checkArgsAndRandom, bind, checkArgs, registerDependency, ret, throw.
    by repeat case_match; simplify_eq.
  - rewrite (evaluateFunction_resolved _ _ _ _ _ _ Hsc),
      (evaluateFunction_resolved _ _ _ _ _ _ Hsc').
    cbn [scopeProps scopeTable]. rewrite Hprops, Hfns.
    unfold bind, checkArgs, applyMember, ret, throw.
    by repeat case_match; simplify_eq.
Qed.

Lemma hostMath_result_independent
    (Math : object) (apply : func -> object -> list value -> Result value)
    (w : World) (f : option object) (fp : option propsMap) (iName : string)
    (compiledArgs : list string) (evaluatedArgs : list value)
    (iAggFnIndices : list nat) :
  resolveFunction Math (self w) iName = Some HostMath ->
  fst (compileFunction Math iName compiledArgs iAggFnIndices w)
    = fst (compileFunction Math iName compiledArgs iAggFnIndices (withClient f fp w))
  ∧ fst (evaluateFunction Math apply iName evaluatedArgs w)
    = fst (evaluateFunction Math apply iName evaluatedArgs (withClient f fp w)).
Proof.
  intros Hsc.
  assert (Hsc' : resolveFunction Math (self (withClient f fp w)) iName = Some HostMath).
  { revert Hsc. rewrite !resolveFunction_spec. cbn [withClient self _fns].
    intros H. by repeat case_match; simplify_eq. }
  split.
  - rewrite (compileFunction_resolved _ _ _ _ _ _ Hsc),
      (compileFunction_resolved _ _ _ _ _ _ Hsc').
    cbn [scopeProps withClient self _MathFnProps].
    unfold checkArgsAndRandom, bind, checkArgs, registerDependency, ret, throw.
    by repeat case_match; simplify_eq.
  - rewrite (evaluateFunction_resolved _ _ _ _ _ _ Hsc),
      (evaluateFunction_resolved _ _ _ _ _ _ Hsc').
    cbn [scopeProps scopeTable withClient self _MathFnProps].
    unfold bind, checkArgs, applyMember, ret, throw.
    by repeat case_match; simplify_eq.
Qed.

(** The scopes, in resolution order, that hold a function under a name. *)
Lemma scopesHolding_first (Math : object) (this : FormulaContext) (iName : string) :
  resolveFunction Math this iName
  = head (List.filter (inScope Math this iName) [BuiltIn; HostMath; Client]).
Proof.
  unfold resolveFunction. cbn [List.find List.filter].
  by repeat case_match.
Qed.

(** C6 as stated fails for a name held by the host Math object and by the
    client table but not by the built-in library: [sin] in a context whose
    client supplies a [sin] of its own is present in more than one scope,
    and it is the host's function that both paths bind -- there is no
    built-in implementation to use. *)
Lemma host_math_function_before_client :
  let w := fresh sine_context in
  let r := evaluateFunction stdMath firstArg "sin" [VNumber 0] w in
  List.filter (inScope stdMath (self w) "sin") [BuiltIn; HostMath; Client]
    = [HostMath; Client]
  ∧ compileFunction stdMath "sin" ["0"] [] w = (Ok "Math.sin(0)", w)
  ∧ applied (snd r)
    = [{| callee := MathFn "sin"; thisArg := stdMath; args := [VNumber 0] |}]
  ∧ ¬ (forall (this : FormulaContext) (iName : string),
         (2 <= length (List.filter (inScope stdMath this iName)
                         [BuiltIn; HostMath; Client]))%nat ->
         resolveFunction stdMath this iName = Some BuiltIn).
Proof.
  intros w r.
  assert (Hheld : List.filter (inScope stdMath (self w) "sin")
                    [BuiltIn; HostMath; Client] = [HostMath; Client])
    by (vm_compute; reflexivity).
  split; [exact Hheld|]. split; [vm_compute; reflexivity|].
  split; [vm_compute; reflexivity|].
  intros Hall. specialize (Hall sine_context "sin").
  rewrite scopesHolding_first in Hall.
  change (self w) with sine_context in Hheld. rewrite Hheld in Hall.
  cbn in Hall. specialize (Hall (le_n 2)). discriminate Hall.
Qed.

(** C6, as the code has it.  Function names are resolved in the order
    built-in library, host Math library, client table, and the first scope
    that holds a function under the name is the one used, on the compile
    path and on the evaluate path alike: the argument check reads the
    metadata of that scope, [compileFunction] returns the call through that
    scope's table (registering the random dependency when the entry is
    flagged), and [evaluateFunction] applies the member of that scope's
    table to the table and the arguments and returns its outcome.  The
    scopes after it are not consulted: for a name the built-in library
    holds, the outcome is the same whatever the host Math object, its
    metadata and the client tables hold; for a name first held by the host
    Math object, whatever the client tables hold.  So the built-in
    implementation is used whenever there is one -- as for [log], [round]
    and [random], which the standard Math object holds too. *)
Theorem function_resolution_first_match
    (Math Math' : object) (apply : func -> object -> list value -> Result value)
    (w : World) (mp : option propsMap) (f : option object) (fp : option propsMap)
    (iName : string) (compiledArgs : list string) (evaluatedArgs : list value)
    (iAggFnIndices : list nat) (sc : scope) :
  resolveFunction Math (self w) iName = Some sc ->
  head (List.filter (inScope Math (self w) iName) [BuiltIn; HostMath; Client])
    = Some sc
  ∧ (exists fn : func,
       let tbl := scopeTable Math (self w) sc in
       let entry := scopeProps (self w) sc ≫= (.!! iName) in
       let called :=
         (apply fn tbl evaluatedArgs,
          withApplied
            (applied w ++ [{| callee := fn; thisArg := tbl; args := evaluatedArgs |}])
            w) in
       get tbl iName = VFunction fn
       ∧ compileFunction Math iName compiledArgs iAggFnIndices w
         = match entry with
           | Some p =>
               if Z.of_nat (length compiledArgs) <? minArgs p
               then (Throw (FuncArgsError iName p), w)
               else (Ok (callCode sc iName compiledArgs),
                     if isRandom p
                     then withRegistered
                            (registered w ++ [randomDependency iAggFnIndices]) w
                     else w)
           | None => (Ok (callCode sc iName compiledArgs), w)
           end
       ∧ evaluateFunction Math apply iName evaluatedArgs w
         = match entry with
           | Some p =>
               if Z.of_nat (length evaluatedArgs) <? minArgs p
               then (Throw (FuncArgsError iName p), w)
               else called
           | None => called
           end)
  ∧ (sc = BuiltIn ->
     let w' := withMathFnProps mp (withClient f fp w) in
     resolveFunction Math' (self w') iName = Some BuiltIn
     ∧ fst (compileFunction Math iName compiledArgs iAggFnIndices w)
       = fst (compileFunction Math' iName compiledArgs iAggFnIndices w')
     ∧ fst (evaluateFunction Math apply iName evaluatedArgs w)
       = fst (evaluateFunction Math' apply iName evaluatedArgs w'))
  ∧ (sc = HostMath ->
     let w' := withClient f fp w in
     resolveFunction Math (self w') iName = Some HostMath
     ∧ fst (compileFunction Math iName compiledArgs iAggFnIndices w)
       = fst (compileFunction Math iName compiledArgs iAggFnIndices w')
     ∧ fst (evaluateFunction Math apply iName evaluatedArgs w)
       = fst (evaluateFunction Math apply iName evaluatedArgs w'))
  ∧ Forall (fun n => inScope stdMath base_context n BuiltIn = true
                     ∧ inScope stdMath base_context n HostMath = true
                     ∧ resolveFunction stdMath base_context n = Some BuiltIn)
           ["log"; "round"; "random"].
Proof.
  intros Hsc.
  split; [by rewrite <- scopesHolding_first|].
  split; [|split; [|split]].
  - destruct (resolveFunction_inScope _ _ _ _ Hsc) as [fn Hfn].
    exists fn. cbv zeta. split; [exact Hfn|]. split.
    + rewrite (compileFunction_resolved _ _ _ _ _ _ Hsc).
      unfold checkArgsAndRandom, bind, checkArgs, registerDependency, ret, throw.
      destruct (scopeProps (self w) sc ≫= (.!! iName)) as [p|]; [|done].
      destruct (Z.of_nat (length compiledArgs) <? minArgs p); [done|].
      by destruct (isRandom p).
    + rewrite (evaluateFunction_resolved _ _ _ _ _ _ Hsc).
      unfold bind, checkArgs, ret, throw.
      destruct (scopeProps (self w) sc ≫= (.!! iName)) as [p|].
      * destruct (Z.of_nat (length evaluatedArgs) <? minArgs p); [done|].
        by apply applyMember_function.
      * by apply applyMember_function.
  - intros -> w'.
    assert (Hin : hasFunction (_fns (self w)) iName = true).
    { revert Hsc. rewrite resolveFunction_spec. intros H.
      by repeat case_match; simplify_eq. }
    split; [rewrite resolveFunction_spec; cbn; by rewrite Hin|].
    by apply builtIn_result_independent.
  - intros -> w'. subst w'. split.
    + revert Hsc. rewrite !resolveFunction_spec. cbn [withClient self _fns fns].
      intros H. by repeat case_match; simplify_eq.
    + by apply hostMath_result_independent.
  - repeat constructor.
Qed.

Lemma function_resolution_first_match_witness :
  let w := fresh base_context in
  let shadowing : object := plainObject {[ "log" := VFunction (ClientFn "log") ]} in
  let w' := withMathFnProps None (withClient (Some shadowing) None w) in
  resolveFunction stdMath (self w) "log" = Some BuiltIn
  ∧ head (List.filter (inScope stdMath (self w) "log") [BuiltIn; HostMath; Client])
    = Some BuiltIn
  ∧ fst (evaluateFunction stdMath firstArg "log" [VNumber 100] w)
    = fst (evaluateFunction ∅ firstArg "log" [VNumber 100] w').
Proof.
  intros w shadowing w'.
  assert (Hsc : resolveFunction stdMath (self w) "log" = Some BuiltIn)
    by (vm_compute; reflexivity).
  pose proof (function_resolution_first_match stdMath ∅ firstArg w None
                (Some shadowing) None "log" ["100"] [VNumber 100] [] BuiltIn Hsc)
    as (Hfirst & _ & Hbuilt & _).
  split; [exact Hsc|]. split; [exact Hfirst|].
  exact (proj2 (proj2 (Hbuilt eq_refl))).
Defined.

(** ** Variable binding *)

(** A name in no scope compiles, with one dependency on it registered, to
    code that splices the name into a [throw]. *)
Lemma compileVariable_unresolved (w : World) (iName : string) :
  isConstant iName = false ->
  defines (eVars (self w)) iName = false ->
  defines (vars (self w)) iName = false ->
  compileVariable iName w
  = (Ok ("(function(){throw new DG.VarReferenceError(" +:+ iName +:+ ");})()"),
     withRegistered (registered w ++ [unresolvedDependency iName]) w).
Proof.
  unfold isConstant, compileVariable. intros Hc He Hv.
  unfold bind at 1. unfold getSelf.
  apply orb_false_elim in Hc as [Hc He'].
  rewrite Hc, He', He, Hv. reflexivity.
Qed.

(** Evaluated with no evaluation context, or with one that is an object
    without the name, a name in no scope raises the error at once. *)
Lemma evaluateVariable_unresolved (Math : object) (ToObject : value -> object)
    (w : World) (iName : string)
    (iEvalContext : value) :
  isConstant iName = false ->
  (iEvalContext = VUndefined
   ∨ exists o : object, iEvalContext = VObject o ∧ get o iName = VUndefined) ->
  defines (vars (self w)) iName = false ->
  evaluateVariable Math ToObject iName iEvalContext w
  = (Throw (VarReferenceError (VString iName)), w).
Proof.
  unfold isConstant, evaluateVariable, defines. intros Hc He Hv.
  unfold bind at 1. unfold getSelf.
  apply orb_false_elim in Hc as [Hc He'].
  rewrite Hc, He'.
  destruct He as [->|(o & -> & Ho)]; unfold bind; cbn; [|rewrite Ho; cbn];
    destruct (vars (self w)) as [t|]; try done;
    by apply negb_false_iff in Hv as ->.
Qed.

(** Evaluated with a context that is falsy and not [undefined] ([null],
    [false], [0], the empty string), every name that is not a constant
    evaluates to that context. *)
Lemma evaluateVariable_falsy_context (Math : object) (ToObject : value -> object)
    (w : World) (iName : string)
    (iEvalContext : value) :
  isConstant iName = false ->
  truthy iEvalContext = false ->
  iEvalContext ≠ VUndefined ->
  evaluateVariable Math ToObject iName iEvalContext w = (Ok iEvalContext, w).
Proof.
  unfold isConstant, evaluateVariable. intros Hc Hf Hu.
  unfold bind at 1. unfold getSelf.
  apply orb_false_elim in Hc as [Hc He'].
  rewrite Hc, He', Hf. unfold bind, ret.
  by destruct iEvalContext.
Qed.

(** A variable bound in a scope compiles to a read of that scope, and the
    function made from the code reads what direct evaluation returns. *)
Lemma bound_variables_compiled_as_evaluated (Math : object)
    (ToObject : value -> object) (globalObject : object) :
  let w := fresh bound_context in
  let c := contextObject bound_context in
  compileVariable "x" w = (Ok "c.vars.x", w)
  ∧ callContextFunction Math ToObject globalObject (createContextFunction "c.vars.x")
      c bound_evalContext
    = Some (Ok (VNumber 3))
  ∧ evaluateVariable Math ToObject "x" bound_evalContext w = (Ok (VNumber 3), w)
  ∧ compileVariable "y" w = (Ok "e.y", w)
  ∧ callContextFunction Math ToObject globalObject (createContextFunction "e.y")
      c bound_evalContext
    = Some (Ok (VString "a"))
  ∧ evaluateVariable Math ToObject "y" bound_evalContext w = (Ok (VString "a"), w).
Proof. intros w c. repeat split; vm_compute; reflexivity. Qed.

(** C1, at the input ["unknownVar"] in a base context.  Compilation returns
    normally and registers the one dependency [{Unresolved, unknownVar,
    unknownVar}]; the code returned carries the name unquoted, so calling the
    function made from it evaluates [unknownVar] as an identifier: with no
    global of that name, whatever else the global object holds, the call
    raises a ReferenceError, not a [VarReferenceError] carrying the name.  For the name ["c"] the
    [VarReferenceError] raised carries the compile context object.  With the
    name quoted, the same code would raise the error with the name. *)
Theorem unresolved_variable_artifact (Math : object) (ToObject : value -> object)
    (c e : value) :
  let w := fresh base_context in
  let code := "(function(){throw new DG.VarReferenceError(unknownVar);})()" in
  compileVariable "unknownVar" w
    = (Ok code, withRegistered [unresolvedDependency "unknownVar"] w)
  ∧ callContextFunction Math ToObject ∅ (createContextFunction code) c e
    = Some (Throw (ReferenceError "unknownVar"))
  ∧ callContextFunction Math ToObject ∅ (createContextFunction code) c e
    ≠ Some (Throw (VarReferenceError (VString "unknownVar")))
  ∧ (forall globalObject : object,
       fst (compileVariable "c" w)
         = Ok "(function(){throw new DG.VarReferenceError(c);})()"
       ∧ callContextFunction Math ToObject globalObject
           (createContextFunction
              "(function(){throw new DG.VarReferenceError(c);})()") c e
         = Some (Throw (VarReferenceError c)))
  ∧ callContextFunction Math ToObject ∅
      (createContextFunction
         "(function(){throw new DG.VarReferenceError('unknownVar');})()") c e
    = Some (Throw (VarReferenceError (VString "unknownVar")))
  ∧ (forall globalObject : object,
       globalObject !! "unknownVar" = None ->
       callContextFunction Math ToObject globalObject (createContextFunction code) c e
       = Some (Throw (ReferenceError "unknownVar"))).
Proof.
  intros w code.
  assert (Hcall : callContextFunction Math ToObject ∅ (createContextFunction code) c e
                  = Some (Throw (ReferenceError "unknownVar")))
    by (vm_compute; reflexivity).
  split; [vm_compute; reflexivity|]. split; [exact Hcall|].
  split; [rewrite Hcall; discriminate|].
  split; [intros G; split; vm_compute; reflexivity|].
  split; [vm_compute; reflexivity|].
  intros G HG.
  assert (Hmade : createContextFunction code
                  = Accepted (ThrowNew VarReference
                                (Referred (Path (Identifier "unknownVar") []))))
    by (vm_compute; reflexivity).
  rewrite Hmade.
  cbn [callContextFunction evalExpression evalOperand evalReference evalPrimary foldl].
  unfold resolveIdentifier. rewrite !bool_decide_eq_false_2 by done.
  by rewrite HG.
Qed.

(** C3, at the input ["x"] with [null] for the evaluation context, in a
    base context: the name is in no scope, and [evaluateVariable] returns
    [null] instead of raising the [VarReferenceError]. *)
Theorem evaluateVariable_null_context (Math : object) (ToObject : value -> object) :
  let w := fresh base_context in
  isConstant "x" = false
  ∧ defines (vars (self w)) "x" = false
  ∧ evaluateVariable Math ToObject "x" VNull w = (Ok VNull, w)
  ∧ evaluateVariable Math ToObject "x" VUndefined w
    = (Throw (VarReferenceError (VString "x")), w).
Proof.
  intros w. split; [reflexivity|]. split; [reflexivity|]. split.
  - by apply evaluateVariable_falsy_context.
  - apply evaluateVariable_unresolved; [reflexivity|by left|reflexivity].
Qed.

(** C8.  For each of the constants [pi], [π] and [e], in every context and
    with every compile and evaluation context passed in, the compiled
    artifact and the direct evaluation yield the same value: the host's
    [Math.PI] for [pi] and [π], its [Math.E] for [e] -- on a standard host
    the doubles nearest to the two numbers. *)
Theorem constants_compiled_as_evaluated
    (Math : object) (ToObject : value -> object) (globalObject : object)
    (w : World) (c e : value) :
  compiledAsEvaluated Math ToObject globalObject w c e "pi" (get Math "PI")
  ∧ compiledAsEvaluated Math ToObject globalObject w c e "π" (get Math "PI")
  ∧ compiledAsEvaluated Math ToObject globalObject w c e "e" (get Math "E")
  ∧ get stdMath "PI" = VNumber (884279719003555 # 281474976710656)
  ∧ get stdMath "E" = VNumber (6121026514868073 # 2251799813685248).
Proof.
  repeat split.
  - exists "Math.PI". repeat split.
  - exists "Math.PI". repeat split.
  - exists "Math.E". repeat split.
Qed.

(** ** Further properties of the function context stack *)

Lemma snoc_ne {A} (l : list A) (x : A) : l ++ [x] ≠ l.
Proof.
  intros H. apply (f_equal length) in H. rewrite length_app in H. cbn in H. lia.
Qed.

Lemma list_empty_or_snoc {A} (l : list A) :
  l = [] ∨ exists (l' : list A) (x : A), l = l' ++ [x].
Proof.
  induction l as [|y l IH] using rev_ind; [by left|right; eauto].
Qed.

(** X1.  [endFunctionContext] raises an exception in exactly one situation:
    the stack is empty and the context given is named by the empty string;
    the exception is a RangeError and nothing has changed.  In every other
    situation it returns normally.  Whatever it is given, it touches only the
    stack and the log: the stack afterwards is the stack before or the stack
    before without its top entry. *)
Theorem endFunctionContext_outcome
    (w : World) (iFunctionContext : option FunctionContext.t) :
  let stack := _functionContextStack (self w) in
  let r := endFunctionContext iFunctionContext w in
  (fst r = Throw RangeError
   ↔ stack = [] ∧ FunctionContext.name <$> iFunctionContext = Some "")
  ∧ (r = (Throw RangeError, w) ∨ fst r = Ok tt)
  ∧ (exists dropped : list FunctionContext.t,
       stack = _functionContextStack (self (snd r)) ++ dropped
       ∧ (length dropped <= 1)%nat)
  ∧ snd r = withLogged (logged (snd r))
              (withStack (_functionContextStack (self (snd r))) w).
Proof.
  intros stack r. subst r stack.
  destruct (decide (FunctionContext.name <$> iFunctionContext
                    = Some (topName (_functionContextStack (self w)))))
    as [Hmatch|Hmismatch].
  - destruct (list_empty_or_snoc (_functionContextStack (self w)))
      as [Hnil|(s & top & Hs)].
    + assert (Hr : endFunctionContext iFunctionContext w = (Throw RangeError, w)).
      { unfold endFunctionContext, bind, getSelf. cbv beta iota zeta.
        rewrite bool_decide_eq_true_2 by done. by rewrite Hnil. }
      rewrite Hr. cbn [fst snd]. rewrite Hnil in Hmatch.
      split; [by split|]. split; [by left|]. split.
      * exists []. rewrite app_nil_r. split; [done|cbn; lia].
      * by destruct w as [[] ? ? ?].
    + destruct iFunctionContext as [c|]; [|done].
      rewrite Hs, topName_snoc in Hmatch. injection Hmatch as Hname.
      rewrite (endFunctionContext_top s top c w Hs Hname). cbn [fst snd].
      split; [split; [done|intros [Hnil _]; rewrite Hs in Hnil;
                            by destruct s]|].
      split; [by right|]. split.
      * exists [top]. split; [by rewrite Hs|cbn; lia].
      * by destruct w as [[] ? ? ?].
  - rewrite (endFunctionContext_mismatch _ _ Hmismatch). cbn [fst snd].
    split; [split; [done|]|].
    { intros [Hnil Hname]. rewrite Hnil in Hmismatch. by cbn in Hmismatch. }
    split; [by right|]. split.
    + exists []. rewrite app_nil_r. split; [done|cbn; lia].
    + by destruct w as [[] ? ? ?].
Qed.

(** X2.  Contexts unwind in part.  After beginning the contexts [kept] and
    then [popped], ending contexts named like those of [popped] in reverse
    order returns normally, logs nothing and leaves exactly the contexts of
    [kept] on top of what the stack held before. *)
Theorem function_contexts_unwind_in_part
    (w : World) (kept popped ended : list FunctionContext.t) :
  FunctionContext.name <$> ended = rev (FunctionContext.name <$> popped) ->
  (beginAll (kept ++ popped) ;; endAll ended) w
  = (Ok tt, withStack (_functionContextStack (self w) ++ kept) w).
Proof.
  intros Hnames. unfold bind. rewrite beginAll_pushes.
  rewrite (endAll_pops (rev popped) ended (_functionContextStack (self w) ++ kept)).
  - by rewrite withStack_twice.
  - by rewrite Hnames, names_rev.
  - cbn. by rewrite rev_involutive, app_assoc.
Qed.

Lemma function_contexts_unwind_in_part_witness :
  let w := fresh base_context in
  let kept := [aggregateContext "mean"] in
  let popped := [aggregateContext "count"; plainContext "round"] in
  let ended := [plainContext "round"; aggregateContext "count"] in
  FunctionContext.name <$> ended = rev (FunctionContext.name <$> popped)
  ∧ (beginAll (kept ++ popped) ;; endAll ended) w
    = (Ok tt, withStack (_functionContextStack (self w) ++ kept) w).
Proof.
  intros w kept popped ended.
  assert (H : FunctionContext.name <$> ended
              = rev (FunctionContext.name <$> popped)) by reflexivity.
  split; [exact H|].
  exact (function_contexts_unwind_in_part w kept popped ended H).
Defined.

Lemma endEach_mismatches (noise : list (option FunctionContext.t)) (w : World) :
  Forall (fun c => FunctionContext.name <$> c
                   ≠ Some (topName (_functionContextStack (self w)))) noise ->
  endEach noise w
  = (Ok tt,
     withLogged (logged w ++ replicate (length noise) endFunctionContext_message) w).
Proof.
  revert w. induction noise as [|c noise IH]; intros w Hall; cbn [endEach].
  - unfold ret. cbn. rewrite app_nil_r. by destruct w.
  - apply Forall_cons in Hall as [Hc Hall]. unfold bind.
    rewrite (endFunctionContext_mismatch _ _ Hc).
    rewrite IH by done. cbn. by rewrite <- app_assoc.
Qed.

(** X3.  Stray ends do no harm.  After a context is begun, any number of
    [end] calls with contexts named otherwise (or with no context) each add
    one message to the log and leave the stack alone, and the matching [end]
    still pops the context: the stack is as before the [begin], and the log
    has one message per stray call. *)
Theorem stray_ends_leave_the_stack
    (w : World) (begun ended : FunctionContext.t)
    (noise : list (option FunctionContext.t)) :
  FunctionContext.name ended = FunctionContext.name begun ->
  Forall (fun c => FunctionContext.name <$> c
                   ≠ Some (FunctionContext.name begun)) noise ->
  (beginFunctionContext begun ;; endEach noise ;; endFunctionContext (Some ended)) w
  = (Ok tt,
     withLogged (logged w ++ replicate (length noise) endFunctionContext_message) w).
Proof.
  intros Hname Hnoise.
  unfold bind at 1. unfold beginFunctionContext, bind at 1, getSelf, setStack.
  set (w1 := withStack (_functionContextStack (self w) ++ [begun]) w).
  unfold bind. rewrite (endEach_mismatches noise w1).
  - rewrite (endFunctionContext_top (_functionContextStack (self w)) begun ended);
      [|done|done].
    by destruct w as [[] ? ? ?].
  - cbn. by rewrite topName_snoc.
Qed.

Lemma stray_ends_leave_the_stack_witness :
  let w := withStack [aggregateContext "mean"] (fresh base_context) in
  let noise := [Some (aggregateContext "mean"); None; Some (plainContext "")] in
  FunctionContext.name (plainContext "count")
    = FunctionContext.name (aggregateContext "count")
  ∧ Forall (fun c => FunctionContext.name <$> c
                     ≠ Some (FunctionContext.name (aggregateContext "count"))) noise
  ∧ (beginFunctionContext (aggregateContext "count") ;; endEach noise ;;
     endFunctionContext (Some (plainContext "count"))) w
    = (Ok tt,
       withLogged (logged w ++ replicate (length noise) endFunctionContext_message) w).
Proof.
  intros w noise.
  assert (Hname : FunctionContext.name (plainContext "count")
                  = FunctionContext.name (aggregateContext "count")) by reflexivity.
  assert (Hnoise : Forall (fun c => FunctionContext.name <$> c
                     ≠ Some (FunctionContext.name (aggregateContext "count"))) noise)
    by (repeat constructor; vm_compute; discriminate).
  split; [exact Hname|]. split; [exact Hnoise|].
  exact (stray_ends_leave_the_stack w (aggregateContext "count")
           (plainContext "count") noise Hname Hnoise).
Defined.

(** ** Further properties of variable binding *)

(** X4.  Direct evaluation of a variable changes nothing in the context --
    no dependency is registered, nothing is logged -- and can fail in one way
    only: with the [VarReferenceError] for the name.  No evaluation context,
    [undefined] and [null] included, makes it raise anything else.  For a
    name that is not a constant it never returns [undefined]. *)
Theorem evaluateVariable_outcome
    (Math : object) (ToObject : value -> object) (w : World) (iName : string)
    (iEvalContext : value) :
  let r := evaluateVariable Math ToObject iName iEvalContext w in
  snd r = w
  ∧ ((exists v : value, fst r = Ok v)
     ∨ fst r = Throw (VarReferenceError (VString iName)))
  ∧ (isConstant iName = true ∨ fst r ≠ Ok VUndefined).
Proof.
  intros r. subst r. unfold isConstant, evaluateVariable.
  unfold bind at 1. unfold getSelf.
  destruct (bool_decide (iName = "pi") || bool_decide (iName = "π")) eqn:Hpi;
    [cbn; split; [done|split; [left; by eexists|by left]]|].
  destruct (bool_decide (iName = "e")) eqn:He;
    [cbn; split; [done|split; [left; by eexists|by left]]|].
  cbn [orb].
  assert (Htail : forall eValue : value,
            let r := (if negb (isUndefined eValue) then ret eValue
                      else if defines (vars (self w)) iName
                           then ret (get (table (vars (self w))) iName)
                           else throw (VarReferenceError (VString iName))) w in
            snd r = w
            ∧ ((exists v : value, fst r = Ok v)
               ∨ fst r = Throw (VarReferenceError (VString iName)))
            ∧ (false = true ∨ fst r ≠ Ok VUndefined)).
  { intros eValue. cbn zeta.
    destruct eValue; cbn;
      try (split; [done|split; [left; by eexists|by right]]).
    unfold defines, table.
    destruct (vars (self w)) as [t|]; cbn;
      [|split; [done|split; [by right|by right]]].
    destruct (get t iName); cbn;
      first [ split; [done|split; [left; by eexists|by right]]
            | split; [done|split; [by right|by right]] ]. }
  unfold bind.
  destruct iEvalContext as [| |b|q|s|f|o]; cbn [truthy];
    try apply Htail;
    repeat (match goal with |- context [if ?b then _ else _] => destruct b end);
    cbn [lift getProperty ret]; apply Htail.
Qed.

(** X5.  Compiling a variable never raises an exception and changes the
    context in at most one way: when the name is no constant and neither
    table defines it, exactly one dependency, the unresolved one for that
    name, is registered; when the name is bound, nothing is registered. *)
Theorem compileVariable_outcome (w : World) (iName : string) :
  let bound := isConstant iName || defines (eVars (self w)) iName
               || defines (vars (self w)) iName in
  exists code : string,
    compileVariable iName w
    = (Ok code,
       if bound then w
       else withRegistered (registered w ++ [unresolvedDependency iName]) w).
Proof.
  unfold isConstant, compileVariable. unfold bind at 1. unfold getSelf.
  destruct (bool_decide (iName = "pi") || bool_decide (iName = "π"));
    [by eexists|].
  destruct (bool_decide (iName = "e")); [by eexists|].
  destruct (defines (eVars (self w)) iName); [by eexists|].
  destruct (defines (vars (self w)) iName); by eexists.
Qed.

(** ** Further properties of function binding *)

(** X6.  [evaluateFunction] does exactly one of three things.  For a name in
    no scope it raises the [FuncReferenceError] for the name.  For a name
    whose metadata in the resolved scope asks for more arguments it raises
    the [FuncArgsError].  Otherwise it applies the member of the resolved
    scope's table once, with that table as [this] and the arguments as
    given, and its outcome is that application's.  In the first two cases the
    context is unchanged; in no case is a dependency registered, anything
    logged or the stack touched. *)
Theorem evaluateFunction_outcome
    (Math : object) (apply : func -> object -> list value -> Result value)
    (w : World) (iName : string) (iArgs : list value) :
  let r := evaluateFunction Math apply iName iArgs w in
  (resolveFunction Math (self w) iName = None
   ∧ r = (Throw (FuncReferenceError (VString iName)), w))
  ∨ (exists p : FnProps,
       metadata Math (self w) iName = Some p
       ∧ Z.of_nat (length iArgs) < minArgs p
       ∧ r = (Throw (FuncArgsError iName p), w))
  ∨ (exists (sc : scope) (f : func),
       resolveFunction Math (self w) iName = Some sc
       ∧ get (scopeTable Math (self w) sc) iName = VFunction f
       ∧ r = (apply f (scopeTable Math (self w) sc) iArgs,
              withApplied
                (applied w ++ [{| callee := f;
                                  thisArg := scopeTable Math (self w) sc;
                                  args := iArgs |}]) w)).
Proof.
  intros r. subst r.
  destruct (resolveFunction Math (self w) iName) as [sc|] eqn:Hsc.
  - destruct (resolveFunction_inScope _ _ _ _ Hsc) as [f Hf].
    rewrite (evaluateFunction_resolved _ _ _ _ _ _ Hsc). unfold bind.
    destruct (metadata Math (self w) iName) as [p|] eqn:Hmeta;
      rewrite (metadata_resolved _ _ _ _ Hsc) in Hmeta.
    + destruct (Z.lt_ge_cases (Z.of_nat (length iArgs)) (minArgs p)) as [Hlt|Hge].
      * right; left. exists p. by rewrite (checkArgs_below _ _ _ _ _ Hmeta Hlt).
      * right; right. exists sc, f.
        rewrite (checkArgs_enough _ _ _ _ _ Hmeta Hge).
        by rewrite (applyMember_function _ _ _ _ _ _ Hf).
    + right; right. exists sc, f.
      rewrite (checkArgs_no_entry _ _ _ _ Hmeta).
      by rewrite (applyMember_function _ _ _ _ _ _ Hf).
  - left. by rewrite (evaluateFunction_unresolved _ _ _ _ _ Hsc).
Qed.

(** X7.  [compileFunction] never applies a function, never logs and never
    raises a [FuncReferenceError]: a name in no scope compiles, with nothing
    registered, to code that throws.  Its only exception is the
    [FuncArgsError], raised with the context unchanged.  Otherwise it returns
    the call code of the resolved scope, and it registers a dependency -- the
    random one, once -- if and only if the metadata of the resolved scope
    flags the name [isRandom]. *)
Theorem compileFunction_outcome
    (Math : object) (w : World) (iName : string) (iArgs : list string)
    (iAggFnIndices : list nat) :
  let r := compileFunction Math iName iArgs iAggFnIndices w in
  (resolveFunction Math (self w) iName = None
   ∧ r = (Ok ("(function(){throw new DG.FuncReferenceError(" +:+ iName +:+ ");})()"),
          w))
  ∨ (exists p : FnProps,
       metadata Math (self w) iName = Some p
       ∧ Z.of_nat (length iArgs) < minArgs p
       ∧ r = (Throw (FuncArgsError iName p), w))
  ∨ (exists sc : scope,
       resolveFunction Math (self w) iName = Some sc
       ∧ r = (Ok (callCode sc iName iArgs),
              if match metadata Math (self w) iName with
                 | Some p => isRandom p
                 | None => false
                 end
              then withRegistered (registered w ++ [randomDependency iAggFnIndices]) w
              else w)).
Proof.
  intros r. subst r.
  destruct (resolveFunction Math (self w) iName) as [sc|] eqn:Hsc.
  - rewrite (compileFunction_resolved _ _ _ _ _ _ Hsc).
    unfold checkArgsAndRandom, bind.
    rewrite (metadata_resolved _ _ _ _ Hsc).
    destruct (scopeProps (self w) sc ≫= (.!! iName)) as [p|] eqn:Hmeta.
    + destruct (Z.lt_ge_cases (Z.of_nat (length iArgs)) (minArgs p)) as [Hlt|Hge].
      * right; left. exists p. by rewrite (checkArgs_below _ _ _ _ _ Hmeta Hlt).
      * right; right. exists sc.
        rewrite (checkArgs_enough _ _ _ _ _ Hmeta Hge).
        by destruct (isRandom p).
    + right; right. exists sc. by rewrite (checkArgs_no_entry _ _ _ _ Hmeta).
  - left. by rewrite (compileFunction_unresolved _ _ _ _ _ Hsc).
Qed.

(** X8.  The argument check is the same on both paths and looks only at the
    number of arguments: for argument lists of equal length,
    [compileFunction] raises a [FuncArgsError] exactly when
    [evaluateFunction] raises that very error without having applied
    anything. *)
Theorem arity_check_agrees_on_both_paths
    (Math : object) (apply : func -> object -> list value -> Result value)
    (w : World) (iName : string) (compiledArgs : list string)
    (evaluatedArgs : list value) (iAggFnIndices : list nat) (p : FnProps) :
  length compiledArgs = length evaluatedArgs ->
  fst (compileFunction Math iName compiledArgs iAggFnIndices w)
    = Throw (FuncArgsError iName p)
  ↔ evaluateFunction Math apply iName evaluatedArgs w
    = (Throw (FuncArgsError iName p), w).
Proof.
  intros Hlen.
  destruct (resolveFunction Math (self w) iName) as [sc|] eqn:Hsc.
  - destruct (resolveFunction_inScope _ _ _ _ Hsc) as [f Hf].
    rewrite (compileFunction_resolved _ _ _ _ _ _ Hsc),
      (evaluateFunction_resolved _ _ _ _ _ _ Hsc).
    unfold checkArgsAndRandom, bind.
    destruct (scopeProps (self w) sc ≫= (.!! iName)) as [q|] eqn:Hmeta.
    + destruct (Z.lt_ge_cases (Z.of_nat (length compiledArgs)) (minArgs q))
        as [Hlt|Hge].
      * rewrite (checkArgs_below _ _ _ _ _ Hmeta Hlt).
        rewrite Hlen in Hlt. rewrite (checkArgs_below _ _ _ _ _ Hmeta Hlt).
        cbn. split; intros H; by simplify_eq.
      * rewrite (checkArgs_enough _ _ _ _ _ Hmeta Hge).
        rewrite Hlen in Hge. rewrite (checkArgs_enough _ _ _ _ _ Hmeta Hge).
        rewrite (applyMember_function _ _ _ _ _ _ Hf).
        split.
        -- by destruct (isRandom q).
        -- intros H. injection H as _ H.
           apply (f_equal applied) in H. cbn in H. by apply snoc_ne in H.
    + rewrite !(checkArgs_no_entry _ _ _ _ Hmeta).
      rewrite (applyMember_function _ _ _ _ _ _ Hf).
      split; [done|].
      intros H. injection H as _ H.
      apply (f_equal applied) in H. cbn in H. by apply snoc_ne in H.
  - rewrite (compileFunction_unresolved _ _ _ _ _ Hsc),
      (evaluateFunction_unresolved _ _ _ _ _ Hsc).
    split; [done|]. intros H. by simplify_eq.
Qed.

Lemma arity_check_agrees_on_both_paths_witness :
  let p := mkProps 2 2 "DG.Formula.FuncCategoryTrigonometric" in
  let w := fresh base_context in
  length ["1"] = length [VUndefined]
  ∧ fst (compileFunction stdMath "atan2" ["1"] [] w) = Throw (FuncArgsError "atan2" p)
  ∧ evaluateFunction stdMath firstArg "atan2" [VUndefined] w
    = (Throw (FuncArgsError "atan2" p), w).
Proof.
  intros p w.
  assert (Hlen : length ["1"] = length [VUndefined]) by reflexivity.
  assert (Hc : fst (compileFunction stdMath "atan2" ["1"] [] w)
               = Throw (FuncArgsError "atan2" p)) by (vm_compute; reflexivity).
  split; [exact Hlen|]. split; [exact Hc|].
  exact (proj1 (arity_check_agrees_on_both_paths stdMath firstArg w "atan2"
                  ["1"] [VUndefined] [] p Hlen) Hc).
Defined.

(** A function of the base class's [_fns] without an entry in [_fnsProps]
    resolves in the built-in scope and has no metadata, whatever the host's
    Math object holds. *)
Lemma builtIn_without_metadata (k : string) :
  isFunction (get base_fns k) = true ->
  base_fnsProps !! k = None ->
  forall Math : object,
    resolveFunction Math base_context k = Some BuiltIn
    ∧ metadata Math base_context k = None.
Proof.
  intros Hf Hp Math.
  assert (Hr : resolveFunction Math base_context k = Some BuiltIn).
  { rewrite resolveFunction_spec. cbn [base_context _fns hasFunction]. by rewrite Hf. }
  split; [exact Hr|]. by rewrite (metadata_resolved _ _ _ _ Hr).
Qed.

(** X9.  The metadata tables of the base class fit the function tables.
    Every name with an entry in [_fnsProps] is a function that the literal
    of [_fns] lists, and [isFinite] is the only function the literal lists
    without an entry.  Behind its own members [_fns] holds the functions
    every object inherits ([toString], [hasOwnProperty], [constructor],
    ...): on every host these names resolve in the built-in scope too, with
    no metadata.  Every name with an entry in [_MathFnProps] is a native
    function of the standard Math object that no member of [_fns] shadows,
    so the entry is the one consulted when the name is bound.  All bounds
    are sound, and [random] is the only name flagged [isRandom]. *)
Theorem base_tables_consistent :
  map_Forall (fun k p => get own_fns k = VFunction (DGFn k) ∧ boundsOk p
                         ∧ (isRandom p = true -> k = "random"))
             base_fnsProps
  ∧ map_Forall (fun k v => v = VFunction (DGFn k) ∧ get base_fns k = v
                           ∧ (base_fnsProps !! k = None -> k = "isFinite"))
               own_fns
  ∧ map_Forall (fun k v => v = VFunction (ObjectFn k) ∧ get base_fns k = v
                           ∧ base_fnsProps !! k = None
                           ∧ forall Math : object,
                               resolveFunction Math base_context k = Some BuiltIn
                               ∧ metadata Math base_context k = None)
               Object_prototype
  ∧ map_Forall (fun k p => resolveFunction stdMath base_context k = Some HostMath
                           ∧ metadata stdMath base_context k = Some p
                           ∧ boundsOk p ∧ isRandom p = false)
               base_MathFnProps.
Proof.
  split; [|split; [|split]]; apply map_Forall_to_list.
  - vm_compute map_to_list.
    repeat (constructor; [cbn; split; [vm_compute; reflexivity|
              split; [split; cbn; lia|first [done|discriminate]]]|]).
    constructor.
  - vm_compute map_to_list.
    repeat (constructor;
            [cbn; split; [reflexivity|split; [vm_compute; reflexivity|
               first [ reflexivity
                     | intros H; vm_compute in H; discriminate H ]]]|]).
    constructor.
  - vm_compute map_to_list.
    repeat (constructor;
            [cbn; split; [reflexivity|split; [vm_compute; reflexivity|
               split; [vm_compute; reflexivity|
                 apply builtIn_without_metadata; vm_compute; reflexivity]]]|]).
    constructor.
  - vm_compute map_to_list.
    repeat (constructor;
            [cbn; split; [vm_compute; reflexivity|
               split; [vm_compute; reflexivity|split; [split; cbn; lia|done]]]|]).
    constructor.
Qed.

(** ** Reading back the emitted source text *)

Lemma append_empty_r (s : string) : s +:+ "" = s.
Proof.
  induction s as [|a s IH]; [done|].
  change (String a (s +:+ "") = String a s). by rewrite IH.
Qed.

Lemma append_assoc (s t u : string) : (s +:+ t) +:+ u = s +:+ (t +:+ u).
Proof.
  induction s as [|a s IH]; [done|].
  change (String a ((s +:+ t) +:+ u) = String a (s +:+ (t +:+ u))). by rewrite IH.
Qed.

Lemma rev_app_append (s t : string) : String.rev_app s t = String.rev s +:+ t.
Proof.
  revert t. induction s as [|a s IH]; intros t; [done|].
  unfold String.rev. cbn [String.rev_app].
  rewrite (IH (String a t)), (IH (String a "")).
  by rewrite append_assoc.
Qed.

Lemma rev_append (s t : string) : String.rev (s +:+ t) = String.rev t +:+ String.rev s.
Proof.
  induction s as [|a s IH].
  - change ("" +:+ t) with t. by rewrite append_empty_r.
  - change (String a s +:+ t) with (String a (s +:+ t)).
    unfold String.rev at 1 3. cbn [String.rev_app].
    rewrite !rev_app_append, IH. by rewrite append_assoc.
Qed.

Lemma rev_rev (s : string) : String.rev (String.rev s) = s.
Proof.
  induction s as [|a s IH]; [done|].
  unfold String.rev at 2. cbn [String.rev_app].
  rewrite rev_app_append, rev_append, IH. done.
Qed.

Lemma stripPrefix_append (p s : string) : stripPrefix p (p +:+ s) = Some s.
Proof.
  induction p as [|a p IH]; [by destruct s|].
  change (String a p +:+ s) with (String a (p +:+ s)). cbn [stripPrefix].
  by rewrite Ascii.eqb_refl.
Qed.

Lemma stripSuffix_append (p s : string) : stripSuffix p (s +:+ p) = Some s.
Proof.
  unfold stripSuffix. rewrite rev_append, stripPrefix_append. cbn.
  by rewrite rev_rev.
Qed.

Lemma identifierPart_plain (a : Ascii.ascii) :
  isIdentifierPart a = true ->
  Ascii.eqb a dot = false
  ∧ Ascii.eqb (Ascii.ascii_of_N 39) a = false
  ∧ Ascii.eqb (Ascii.ascii_of_N 40) a = false.
Proof.
  destruct a as [[] [] [] [] [] [] [] []]; vm_compute; intros H;
    first [discriminate H | done].
Qed.

Lemma splitOn_go_no_separator (sep : Ascii.ascii) (s cur : string) :
  forallb (fun a => negb (Ascii.eqb a sep)) (String.list_ascii_of_string s) = true ->
  splitOn_go sep cur s = [String.rev cur +:+ s].
Proof.
  revert cur. induction s as [|a s IH]; intros cur H; cbn [splitOn_go].
  - by rewrite append_empty_r.
  - cbn [String.list_ascii_of_string forallb] in H.
    apply andb_true_iff in H as [Ha Hs].
    apply negb_true_iff in Ha. rewrite Ha, (IH _ Hs).
    unfold String.rev. cbn [String.rev_app].
    by rewrite rev_app_append, append_assoc.
Qed.

Lemma identifierName_parts (s : string) :
  isIdentifierName s = true ->
  forallb isIdentifierPart (String.list_ascii_of_string s) = true.
Proof.
  destruct s as [|a s]; [done|].
  cbn [isIdentifierName String.list_ascii_of_string forallb].
  intros H. apply andb_true_iff in H as [Ha Hs].
  unfold isIdentifierPart at 1. by rewrite Ha, Hs.
Qed.

Lemma identifierName_no_dot (s : string) :
  isIdentifierName s = true ->
  forallb (fun a => negb (Ascii.eqb a dot)) (String.list_ascii_of_string s) = true.
Proof.
  intros H. apply identifierName_parts in H.
  revert H. generalize (String.list_ascii_of_string s).
  intros l. induction l as [|b l IH]; [done|]. cbn [forallb].
  intros H. apply andb_true_iff in H as [Hb Hl].
  destruct (identifierPart_plain b Hb) as (-> & _ & _). by rewrite IH.
Qed.

Lemma identifierName_first (s : string) :
  isIdentifierName s = true ->
  exists (a : Ascii.ascii) (s' : string),
    s = String a s'
    ∧ Ascii.eqb (Ascii.ascii_of_N 39) a = false
    ∧ Ascii.eqb (Ascii.ascii_of_N 40) a = false.
Proof.
  intros H. pose proof (identifierName_parts _ H) as Hparts.
  destruct s as [|a s]; [done|].
  cbn [String.list_ascii_of_string forallb] in Hparts.
  apply andb_true_iff in Hparts as [Ha _].
  destruct (identifierPart_plain a Ha) as (_ & H1 & H2). by exists a, s.
Qed.

Lemma splitOn_identifier (n : string) :
  isIdentifierName n = true -> splitOn dot n = [n].
Proof.
  intros H. unfold splitOn.
  by rewrite (splitOn_go_no_separator _ _ _ (identifierName_no_dot _ H)).
Qed.

Lemma reading_map_map {A B C} (f : A -> B) (g : B -> C) (r : reading A) :
  reading_map g (reading_map f r) = reading_map (fun a => g (f a)) r.
Proof. by destruct r. Qed.

Lemma classify_identifier (x : string) (alone : bool) :
  isIdentifier x = true -> classify x alone = Accepted (Identifier x).
Proof.
  unfold isIdentifier, classify. intros H.
  apply andb_true_iff in H as [H Hbound].
  apply andb_true_iff in H as [H Hkeyword].
  apply andb_true_iff in H as [Hname Hliteral].
  rewrite Hname. cbn [negb].
  apply negb_true_iff in Hliteral, Hkeyword, Hbound.
  rewrite Hkeyword, Hbound.
  destruct (literal x) as [v|]; [|done].
  by rewrite bool_decide_eq_true_2 in Hliteral.
Qed.

Lemma classify_literal (x : string) (alone : bool) (v : value) :
  literal x = Some v -> classify x alone = Accepted (Literal v).
Proof.
  intros H. unfold classify.
  assert (Hname : isIdentifierName x = true).
  { unfold literal in H. repeat case_bool_decide; by simplify_eq. }
  by rewrite Hname, H.
Qed.

Lemma classify_keyword (x : string) :
  x ∈ keywords -> classify x true = Rejected.
Proof.
  intros H. unfold classify.
  assert (Hfacts : isIdentifierName x = true ∧ literal x = None).
  { unfold keywords in H. set_unfold. by destruct_or!; subst x. }
  destruct Hfacts as [Hname Hliteral].
  by rewrite Hname, Hliteral, bool_decide_eq_true_2.
Qed.

(** A name by itself is read as its classification says. *)
Lemma parseOperand_name (n : string) :
  isIdentifierName n = true ->
  parseOperand n = reading_map (fun h => Referred (Path h [])) (classify n true).
Proof.
  intros H. unfold parseOperand, stringLiteral.
  destruct (identifierName_first _ H) as (a & s' & Hn & Hq & _).
  rewrite Hn at 1. cbn [stripPrefix].
  match goal with
  | |- context [Ascii.eqb ?q a] =>
      change (Ascii.eqb q a) with (Ascii.eqb (Ascii.ascii_of_N 39) a)
  end.
  rewrite Hq. cbn [mbind option_bind].
  unfold parseReference. rewrite (splitOn_identifier _ H).
  cbn [forallb]. by rewrite reading_map_map.
Qed.

(** A path of names that starts with an identifier and not with a
    parenthesis is read as a reference. *)
Lemma parseExpression_path (x : string) (props : list string) (src : string) :
  splitOn dot src = x :: props ->
  isIdentifier x = true ->
  forallb isIdentifierName props = true ->
  (exists (a : Ascii.ascii) (s : string),
     src = String a s ∧ Ascii.eqb (Ascii.ascii_of_N 40) a = false) ->
  parseExpression src = Accepted (Read (Path (Identifier x) props)).
Proof.
  intros Hsplit Hx Hprops (a & s & -> & Ha).
  unfold parseExpression, thrownArgument.
  change (stripPrefix ("(function(){throw new DG." +:+ className VarReference +:+ "(")
                      (String a s))
    with (if Ascii.eqb (Ascii.ascii_of_N 40) a
          then stripPrefix "function(){throw new DG.VarReferenceError(" s
          else None).
  change (stripPrefix ("(function(){throw new DG." +:+ className FuncReference +:+ "(")
                      (String a s))
    with (if Ascii.eqb (Ascii.ascii_of_N 40) a
          then stripPrefix "function(){throw new DG.FuncReferenceError(" s
          else None).
  rewrite Ha. cbn [mbind option_bind].
  unfold parseReference. rewrite Hsplit, Hprops.
  by rewrite (classify_identifier _ _ Hx).
Qed.

Lemma createContextFunction_parse (iExpression : string) :
  createContextFunction iExpression = parseExpression iExpression.
Proof.
  unfold createContextFunction, parseFunctionBody.
  by rewrite stripPrefix_append.
Qed.

Lemma parseExpression_deferred_variable (iName : string) :
  isIdentifierName iName = true ->
  parseExpression
    ("(function(){throw new DG.VarReferenceError(" +:+ iName +:+ ");})()")
  = reading_map (fun h => ThrowNew VarReference (Referred (Path h [])))
      (classify iName true).
Proof.
  intros H. unfold parseExpression, thrownArgument.
  change (stripPrefix ("(function(){throw new DG." +:+ className VarReference +:+ "(")
            ("(function(){throw new DG.VarReferenceError(" +:+ iName +:+ ");})()"))
    with (Some (iName +:+ ");})()")).
  cbn [mbind option_bind]. rewrite stripSuffix_append.
  by rewrite (parseOperand_name _ H), reading_map_map.
Qed.

Lemma parseExpression_deferred_function (iName : string) :
  isIdentifierName iName = true ->
  parseExpression
    ("(function(){throw new DG.FuncReferenceError(" +:+ iName +:+ ");})()")
  = reading_map (fun h => ThrowNew FuncReference (Referred (Path h [])))
      (classify iName true).
Proof.
  intros H. unfold parseExpression, thrownArgument.
  change (stripPrefix ("(function(){throw new DG." +:+ className VarReference +:+ "(")
            ("(function(){throw new DG.FuncReferenceError(" +:+ iName +:+ ");})()"))
    with (@None string).
  change (stripPrefix ("(function(){throw new DG." +:+ className FuncReference +:+ "(")
            ("(function(){throw new DG.FuncReferenceError(" +:+ iName +:+ ");})()"))
    with (Some (iName +:+ ");})()")).
  cbn [mbind option_bind]. rewrite stripSuffix_append.
  by rewrite (parseOperand_name _ H), reading_map_map.
Qed.

(** What the function made from the code of a name in no scope does when
    called, by the kind of word the name is: an identifier is looked up, a
    literal is the value thrown, and for a keyword no function is made. *)
Lemma call_deferred (Math : object) (ToObject : value -> object)
    (globalObject : object) (ctor : DGError) (code iName : string) (c e : value) :
  parseExpression code
  = reading_map (fun h => ThrowNew ctor (Referred (Path h []))) (classify iName true) ->
  let made := createContextFunction code in
  let called := callContextFunction Math ToObject globalObject made c e in
  (isIdentifier iName = true ->
   called = Some (match resolveIdentifier Math globalObject c e iName with
                  | Ok v => Throw (construct ctor v)
                  | Throw err => Throw err
                  end)
   ∧ (called = Some (Throw (construct ctor (VString iName)))
      ↔ resolveIdentifier Math globalObject c e iName = Ok (VString iName)))
  ∧ (forall v : value,
       literal iName = Some v ->
       called = Some (Throw (construct ctor v)) ∧ v ≠ VString iName)
  ∧ (iName ∈ keywords -> made = Rejected ∧ called = Some (Throw SyntaxError)).
Proof.
  intros Hparse made called. subst called made.
  rewrite createContextFunction_parse, Hparse.
  split; [|split].
  - intros Hid. rewrite (classify_identifier _ _ Hid). cbn.
    split; [reflexivity|].
    destruct (resolveIdentifier Math globalObject c e iName) as [v|err] eqn:Hr; cbn.
    + split; intros H; destruct ctor; by simplify_eq.
    + assert (err = ReferenceError iName) as ->.
      { revert Hr. unfold resolveIdentifier. intros Hr.
        repeat case_match; by simplify_eq. }
      split; intros H; destruct ctor; by simplify_eq.
  - intros v Hv. rewrite (classify_literal _ _ _ Hv). cbn.
    split; [reflexivity|].
    unfold literal in Hv. repeat case_bool_decide; by simplify_eq.
  - intros Hk. by rewrite (classify_keyword _ Hk).
Qed.

Lemma not_constant (iName : string) :
  isConstant iName = false ->
  bool_decide (iName = "pi") || bool_decide (iName = "π") = false
  ∧ bool_decide (iName = "e") = false.
Proof. unfold isConstant. intros H. by apply orb_false_elim in H. Qed.

Lemma call_environment_read (Math : object) (ToObject : value -> object)
    (globalObject : object) (c e : value) (iName : string) :
  isIdentifierName iName = true ->
  callContextFunction Math ToObject globalObject
    (createContextFunction ("e." +:+ iName)) c e
  = Some (getProperty ToObject e iName).
Proof.
  intros Hid. rewrite createContextFunction_parse.
  rewrite (parseExpression_path "e" [iName]).
  - reflexivity.
  - change (splitOn dot ("e." +:+ iName)) with ("e" :: splitOn_go dot "" iName).
    by rewrite (splitOn_go_no_separator _ _ _ (identifierName_no_dot _ Hid)).
  - reflexivity.
  - cbn [forallb]. by rewrite Hid.
  - eexists _, _. split; reflexivity.
Qed.

Lemma call_instance_read (Math : object) (ToObject : value -> object)
    (globalObject : object) (this : FormulaContext) (t : object) (e : value)
    (iName : string) :
  isIdentifierName iName = true ->
  vars this = Some t ->
  callContextFunction Math ToObject globalObject
    (createContextFunction ("c.vars." +:+ iName)) (contextObject this) e
  = Some (Ok (get t iName)).
Proof.
  intros Hid Hvars. rewrite createContextFunction_parse.
  rewrite (parseExpression_path "c" ["vars"; iName]).
  - cbn [callContextFunction evalExpression evalReference evalPrimary foldl].
    change (resolveIdentifier Math globalObject (contextObject this) e "c")
      with (@Ok value (contextObject this)).
    cbn [bindResult].
    change (getProperty ToObject (contextObject this) "vars")
      with (@Ok value (match vars this with
                       | Some t => VObject t
                       | None => VUndefined
                       end)).
    by rewrite Hvars.
  - change (splitOn dot ("c.vars." +:+ iName))
      with ("c" :: "vars" :: splitOn_go dot "" iName).
    by rewrite (splitOn_go_no_separator _ _ _ (identifierName_no_dot _ Hid)).
  - reflexivity.
  - cbn [forallb]. by rewrite Hid.
  - eexists _, _. split; reflexivity.
Qed.

(** X10.  An instance variable compiles to a read of the context's [vars]
    table that agrees with direct evaluation.  For a name that can follow a
    dot (an ASCII identifier name, reserved words included), is no constant,
    is not declared in [eVars] and is defined in [vars]: compilation
    registers nothing; the function made from the code, called with the
    context and any evaluation context, returns the value [vars] holds; and
    direct evaluation returns the same value when the evaluation context is
    absent or an object that does not define the name. *)
Theorem instance_variable_compiled_as_evaluated
    (Math : object) (ToObject : value -> object) (globalObject : object)
    (w : World) (iName : string) (iEvalContext : value) :
  isIdentifierName iName = true ->
  isConstant iName = false ->
  defines (eVars (self w)) iName = false ->
  defines (vars (self w)) iName = true ->
  (iEvalContext = VUndefined
   ∨ exists o : object, iEvalContext = VObject o ∧ get o iName = VUndefined) ->
  let held := get (table (vars (self w))) iName in
  compileVariable iName w = (Ok ("c.vars." +:+ iName), w)
  ∧ (forall e : value,
       callContextFunction Math ToObject globalObject
         (createContextFunction ("c.vars." +:+ iName)) (contextObject (self w)) e
       = Some (Ok held))
  ∧ evaluateVariable Math ToObject iName iEvalContext w = (Ok held, w)
  ∧ held ≠ VUndefined.
Proof.
  intros Hid Hconst HeVars Hvars Hctx held. subst held.
  destruct (not_constant _ Hconst) as [Hpi He].
  split; [|split; [|split]].
  - unfold compileVariable. unfold bind at 1. unfold getSelf.
    by rewrite Hpi, He, HeVars, Hvars.
  - intros e. unfold defines in Hvars.
    destruct (vars (self w)) as [t|] eqn:Ht; [|done].
    by rewrite (call_instance_read _ _ _ _ t _ _ Hid Ht).
  - unfold evaluateVariable. unfold bind at 1. unfold getSelf.
    rewrite Hpi, He, Hvars.
    destruct Hctx as [->|(o & -> & Ho)]; unfold bind; cbn; [done|].
    by rewrite Ho.
  - unfold defines in Hvars. destruct (vars (self w)) as [t|]; [|done].
    cbn. intros Hu. by rewrite Hu in Hvars.
Qed.

Lemma instance_variable_compiled_as_evaluated_witness :
  let w := fresh bound_context in
  isIdentifierName "x" = true
  ∧ isConstant "x" = false
  ∧ defines (eVars (self w)) "x" = false
  ∧ defines (vars (self w)) "x" = true
  ∧ (bound_evalContext = VUndefined
     ∨ exists o : object, bound_evalContext = VObject o ∧ get o "x" = VUndefined)
  ∧ compileVariable "x" w = (Ok ("c.vars." +:+ "x"), w)
  ∧ evaluateVariable stdMath bareToObject "x" bound_evalContext w
    = (Ok (get (table (vars (self w))) "x"), w).
Proof.
  intros w.
  assert (H1 : isIdentifierName "x" = true) by reflexivity.
  assert (H2 : isConstant "x" = false) by reflexivity.
  assert (H3 : defines (eVars (self w)) "x" = false) by reflexivity.
  assert (H4 : defines (vars (self w)) "x" = true) by reflexivity.
  assert (H5 : bound_evalContext = VUndefined
               ∨ exists o : object,
                   bound_evalContext = VObject o ∧ get o "x" = VUndefined)
    by (right; eexists; split; reflexivity).
  pose proof (instance_variable_compiled_as_evaluated stdMath bareToObject ∅ w "x"
                bound_evalContext H1 H2 H3 H4 H5) as (Hc & _ & Hv & _).
  repeat (split; [assumption|]). exact Hv.
Defined.

(** X11.  An environment variable compiles to a read of the evaluation
    context given at call time.  For a name that can follow a dot, is no
    constant and is declared in [eVars], whatever [vars] holds: compilation
    returns [e.<name>] and registers nothing; the function made from the
    code returns what the evaluation context passed to it holds under the
    name -- not what [eVars] held at compile time; for a primitive value
    that is a member of its wrapper -- and raises a TypeError when called
    with [undefined] or [null] for it; direct evaluation with an evaluation
    context that defines the name returns the same value. *)
Theorem environment_variable_compiled_as_evaluated
    (Math : object) (ToObject : value -> object) (globalObject : object)
    (w : World) (iName : string) (c : value) (o : object) :
  isIdentifierName iName = true ->
  isConstant iName = false ->
  defines (eVars (self w)) iName = true ->
  get o iName ≠ VUndefined ->
  compileVariable iName w = (Ok ("e." +:+ iName), w)
  ∧ (forall e : value,
       callContextFunction Math ToObject globalObject
         (createContextFunction ("e." +:+ iName)) c e
       = Some (getProperty ToObject e iName))
  ∧ callContextFunction Math ToObject globalObject
      (createContextFunction ("e." +:+ iName)) c (VObject o)
    = Some (Ok (get o iName))
  ∧ (forall s : string,
       callContextFunction Math ToObject globalObject
         (createContextFunction ("e." +:+ iName)) c (VString s)
       = Some (Ok (get (ToObject (VString s)) iName)))
  ∧ callContextFunction Math ToObject globalObject
      (createContextFunction ("e." +:+ iName)) c VUndefined
    = Some (Throw TypeError)
  ∧ callContextFunction Math ToObject globalObject
      (createContextFunction ("e." +:+ iName)) c VNull
    = Some (Throw TypeError)
  ∧ evaluateVariable Math ToObject iName (VObject o) w = (Ok (get o iName), w).
Proof.
  intros Hid Hconst HeVars Ho.
  destruct (not_constant _ Hconst) as [Hpi He].
  pose proof (fun e => call_environment_read Math ToObject globalObject c e iName Hid)
    as Hcall.
  split; [|split; [exact Hcall|]].
  - unfold compileVariable. unfold bind at 1. unfold getSelf.
    by rewrite Hpi, He, HeVars.
  - rewrite !Hcall. split; [reflexivity|].
    split; [intros s; by rewrite Hcall|].
    split; [reflexivity|]. split; [reflexivity|].
    unfold evaluateVariable. unfold bind at 1. unfold getSelf.
    rewrite Hpi, He. unfold bind. cbn.
    by destruct (get o iName).
Qed.

Lemma environment_variable_compiled_as_evaluated_witness :
  let w := fresh bound_context in
  let o : object := plainObject {[ "y" := VString "a" ]} in
  isIdentifierName "y" = true
  ∧ isConstant "y" = false
  ∧ defines (eVars (self w)) "y" = true
  ∧ get o "y" ≠ VUndefined
  ∧ compileVariable "y" w = (Ok ("e." +:+ "y"), w)
  ∧ evaluateVariable stdMath bareToObject "y" (VObject o) w = (Ok (get o "y"), w).
Proof.
  intros w o.
  assert (H1 : isIdentifierName "y" = true) by reflexivity.
  assert (H2 : isConstant "y" = false) by reflexivity.
  assert (H3 : defines (eVars (self w)) "y" = true) by reflexivity.
  assert (H4 : get o "y" ≠ VUndefined) by (vm_compute; discriminate).
  pose proof (environment_variable_compiled_as_evaluated stdMath bareToObject ∅ w "y"
                VNull o H1 H2 H3 H4) as (Hc & _ & _ & _ & _ & _ & Hv).
  repeat (split; [assumption|]). exact Hv.
Defined.

(** X12.  A function name in no scope: compilation returns normally,
    whatever the arguments, with the context unchanged, whereas direct
    evaluation raises the [FuncReferenceError] for the name at once.  The
    code returned carries the name unquoted, so what becomes of it depends
    on the word the name is.  An identifier is evaluated when the function
    made from the code is called: the call raises the identifier's own
    ReferenceError, or a [FuncReferenceError] carrying the identifier's
    value, which is the error for the name only if that value is the very
    string.  One of the literals [null], [true], [false] is the value the
    error carries.  For a keyword the code is no program: the [Function]
    constructor raises a SyntaxError and no function is made. *)
Theorem unknown_function_deferred_error
    (Math : object) (ToObject : value -> object) (globalObject : object)
    (apply : func -> object -> list value -> Result value) (w : World)
    (iName : string) (compiledArgs : list string) (evaluatedArgs : list value)
    (iAggFnIndices : list nat) (c e : value) :
  isIdentifierName iName = true ->
  resolveFunction Math (self w) iName = None ->
  let code := "(function(){throw new DG.FuncReferenceError(" +:+ iName +:+ ");})()" in
  let made := createContextFunction code in
  let called := callContextFunction Math ToObject globalObject made c e in
  compileFunction Math iName compiledArgs iAggFnIndices w = (Ok code, w)
  ∧ evaluateFunction Math apply iName evaluatedArgs w
    = (Throw (FuncReferenceError (VString iName)), w)
  ∧ (isIdentifier iName = true ->
     called = Some (match resolveIdentifier Math globalObject c e iName with
                    | Ok v => Throw (FuncReferenceError v)
                    | Throw err => Throw err
                    end)
     ∧ (called = Some (Throw (FuncReferenceError (VString iName)))
        ↔ resolveIdentifier Math globalObject c e iName = Ok (VString iName)))
  ∧ (forall v : value,
       literal iName = Some v ->
       called = Some (Throw (FuncReferenceError v)) ∧ v ≠ VString iName)
  ∧ (iName ∈ keywords -> made = Rejected ∧ called = Some (Throw SyntaxError)).
Proof.
  intros Hid Hsc code made called.
  split; [by apply compileFunction_unresolved|].
  split; [by apply evaluateFunction_unresolved|].
  exact (call_deferred Math ToObject globalObject FuncReference code iName c e
           (parseExpression_deferred_function iName Hid)).
Qed.

Lemma unknown_function_deferred_error_witness :
  let w := fresh base_context in
  let code := "(function(){throw new DG.FuncReferenceError(" +:+ "median" +:+ ");})()" in
  isIdentifierName "median" = true
  ∧ resolveFunction stdMath (self w) "median" = None
  ∧ compileFunction stdMath "median" ["c.vars.x"] [] w = (Ok code, w)
  ∧ evaluateFunction stdMath firstArg "median" [VNumber 1] w
    = (Throw (FuncReferenceError (VString "median")), w).
Proof.
  intros w code.
  assert (H1 : isIdentifierName "median" = true) by reflexivity.
  assert (H2 : resolveFunction stdMath (self w) "median" = None)
    by (vm_compute; reflexivity).
  pose proof (unknown_function_deferred_error stdMath bareToObject ∅ firstArg w
                "median" ["c.vars.x"] [VNumber 1] [] (contextObject base_context)
                VUndefined H1 H2) as (Hc & He & _).
  split; [exact H1|]. split; [exact H2|]. split; [exact Hc|exact He].
Defined.

(** X13.  A variable name in no scope: compilation returns normally and
    registers the one unresolved dependency, and direct evaluation without
    an evaluation context raises the [VarReferenceError] for the name.  The
    code returned carries the name unquoted.  An identifier is evaluated
    when the function made from the code is called: the call raises the
    identifier's own ReferenceError, or a [VarReferenceError] carrying the
    identifier's value.  One of the literals [null], [true], [false] is
    the value the error carries.  For a keyword the [Function] constructor
    raises a SyntaxError and no function is made. *)
Theorem unresolved_variable_deferred_error
    (Math : object) (ToObject : value -> object) (globalObject : object)
    (w : World) (iName : string) (c e : value) :
  isIdentifierName iName = true ->
  isConstant iName = false ->
  defines (eVars (self w)) iName = false ->
  defines (vars (self w)) iName = false ->
  let code := "(function(){throw new DG.VarReferenceError(" +:+ iName +:+ ");})()" in
  let made := createContextFunction code in
  let called := callContextFunction Math ToObject globalObject made c e in
  compileVariable iName w
    = (Ok code, withRegistered (registered w ++ [unresolvedDependency iName]) w)
  ∧ evaluateVariable Math ToObject iName VUndefined w
    = (Throw (VarReferenceError (VString iName)), w)
  ∧ (isIdentifier iName = true ->
     called = Some (match resolveIdentifier Math globalObject c e iName with
                    | Ok v => Throw (VarReferenceError v)
                    | Throw err => Throw err
                    end)
     ∧ (called = Some (Throw (VarReferenceError (VString iName)))
        ↔ resolveIdentifier Math globalObject c e iName = Ok (VString iName)))
  ∧ (forall v : value,
       literal iName = Some v ->
       called = Some (Throw (VarReferenceError v)) ∧ v ≠ VString iName)
  ∧ (iName ∈ keywords -> made = Rejected ∧ called = Some (Throw SyntaxError)).
Proof.
  intros Hid Hconst HeVars Hvars code made called.
  split; [by apply compileVariable_unresolved|].
  split; [apply evaluateVariable_unresolved; [done|by left|done]|].
  exact (call_deferred Math ToObject globalObject VarReference code iName c e
           (parseExpression_deferred_variable iName Hid)).
Qed.

Lemma unresolved_variable_deferred_error_witness :
  let w := fresh bound_context in
  isIdentifierName "height" = true
  ∧ isConstant "height" = false
  ∧ defines (eVars (self w)) "height" = false
  ∧ defines (vars (self w)) "height" = false
  ∧ compileVariable "height" w
    = (Ok ("(function(){throw new DG.VarReferenceError(" +:+ "height" +:+ ");})()"),
       withRegistered (registered w ++ [unresolvedDependency "height"]) w)
  ∧ evaluateVariable stdMath bareToObject "height" VUndefined w
    = (Throw (VarReferenceError (VString "height")), w).
Proof.
  intros w.
  assert (H1 : isIdentifierName "height" = true) by reflexivity.
  assert (H2 : isConstant "height" = false) by reflexivity.
  assert (H3 : defines (eVars (self w)) "height" = false) by reflexivity.
  assert (H4 : defines (vars (self w)) "height" = false) by reflexivity.
  pose proof (unresolved_variable_deferred_error stdMath bareToObject ∅ w "height"
                VNull VNull H1 H2 H3 H4) as (Hc & Hv & _).
  repeat (split; [assumption|]). exact Hv.
Defined.

(** ** The built-in [trunc], [frac] and [round] *)

Lemma towardZero_bounds (q : Q) :
  ((0 <= q)%Q ->
   0 <= towardZero q
   ∧ (inject_Z (towardZero q) <= q)%Q ∧ (q < inject_Z (towardZero q) + 1)%Q)
  ∧ ((q <= 0)%Q ->
     towardZero q <= 0
     ∧ (q <= inject_Z (towardZero q))%Q ∧ (inject_Z (towardZero q) - 1 < q)%Q).
Proof.
  unfold towardZero. destruct (Qle_bool 0 q) eqn:Hsign.
  - apply Qle_bool_iff in Hsign.
    pose proof (Qfloor_le q) as Hle. pose proof (Qlt_floor q) as Hlt.
    rewrite inject_Z_plus in Hlt. change (inject_Z 1) with 1%Q in Hlt.
    assert (H0 : 0 <= Qfloor q)
      by (rewrite <- (Qfloor_Z 0); by apply Qfloor_resp_le).
    split; [done|].
    intros Hneg. assert (Hq : (q == 0)%Q) by lra.
    rewrite (Qfloor_comp _ _ Hq). change (Qfloor 0) with 0.
    change (inject_Z 0) with 0%Q. repeat split; [done|lra|lra].
  - assert (Hneg : (q < 0)%Q).
    { apply Qnot_le_lt. intros H. apply Qle_bool_iff in H. congruence. }
    split; [intros Hpos; exfalso; lra|]. intros _.
    pose proof (Qle_ceiling q) as Hle. pose proof (Qceiling_lt q) as Hlt.
    change (Qceiling q - 1) with (Qceiling q + (-1)) in Hlt.
    rewrite inject_Z_plus in Hlt. change (inject_Z (-1)) with (-1 # 1)%Q in Hlt.
    assert (H0 : Qceiling q <= 0).
    { rewrite <- (Qceiling_Z 0). apply Qceiling_resp_le.
      change (inject_Z 0) with 0%Q. lra. }
    repeat split; [done|lra|lra].
Qed.


Lemma towardZero_integer (z : Z) : towardZero (inject_Z z) = z.
Proof.
  unfold towardZero. destruct (Qle_bool 0 (inject_Z z)).
  - apply Qfloor_Z.
  - apply Qceiling_Z.
Qed.

(** What [x < 0 ? Math.ceil(x) : Math.floor(x)] comes to on a native host. *)
Lemma truncated_number (x : number) :
  (if ltZero x then Math_ceil x else Math_floor x)
  = match x with
    | Finite q => Finite (inject_Z (towardZero q))
    | _ => x
    end.
Proof.
  destruct x as [q| | |]; try reflexivity.
  unfold ltZero, towardZero, Math_ceil, Math_floor.
  by destruct (Qle_bool 0 q).
Qed.

Lemma trunc_apply_number (Math : object)
    (host : func -> object -> list value -> Result value) (this : object)
    (x : number) (rest : list value) :
  nativeCeilFloor Math host ->
  Fns.trunc_apply Math host this (VNumber x :: rest)
  = Ok (VNumber (match x with
                 | Finite q => Finite (inject_Z (towardZero q))
                 | _ => x
                 end)).
Proof.
  intros Hnative. destruct (Hnative x) as [Hceil Hfloor].
  rewrite <- truncated_number. unfold Fns.trunc_apply.
  change (argument 0 (VNumber x :: rest)) with (VNumber x).
  cbn [lessThanZero].
  by destruct (ltZero x).
Qed.

Lemma this_trunc_base (Math : object)
    (host : func -> object -> list value -> Result value) (v : value) :
  Fns.this_trunc Math host base_fns v = Fns.trunc_apply Math host base_fns [v].
Proof. reflexivity. Qed.


Lemma evaluateFunction_base_member
    (Math : object) (apply : func -> object -> list value -> Result value)
    (w : World) (k : string) (f : func) (iArgs : list value) :
  hasBaseFns (self w) ->
  get base_fns k = VFunction f ->
  (forall p : FnProps,
     base_fnsProps !! k = Some p -> minArgs p <= Z.of_nat (length iArgs)) ->
  evaluateFunction Math apply k iArgs w
  = (apply f base_fns iArgs,
     withApplied
       (applied w ++ [{| callee := f; thisArg := base_fns; args := iArgs |}]) w).
Proof.
  intros [Hfns Hprops] Hf Harity.
  assert (Hsc : resolveFunction Math (self w) k = Some BuiltIn).
  { rewrite resolveFunction_spec, Hfns. unfold hasFunction. by rewrite Hf. }
  rewrite (evaluateFunction_resolved _ _ _ _ _ _ Hsc).
  cbn [scopeProps scopeTable]. rewrite Hfns, Hprops. cbn [table]. unfold bind.
  destruct (base_fnsProps !! k) as [p|] eqn:Hp.
  - rewrite (checkArgs_enough k iArgs (Some base_fnsProps) p w Hp (Harity p eq_refl)).
    by apply applyMember_function.
  - rewrite (checkArgs_no_entry k iArgs (Some base_fnsProps) w Hp).
    by apply applyMember_function.
Qed.

(** One of [trunc], [frac], [round] evaluated on at least one argument in a
    context with the base class's tables: the built-in function is applied,
    once, to the base table. *)
Lemma evaluateFunction_numeric
    (Math : object) (apply : func -> object -> list value -> Result value)
    (w : World) (k : string) (v : value) (rest : list value) :
  hasBaseFns (self w) ->
  k = "trunc" ∨ k = "frac" ∨ k = "round" ->
  evaluateFunction Math apply k (v :: rest) w
  = (apply (DGFn k) base_fns (v :: rest), applying w k (v :: rest)).
Proof.
  intros Hbase Hk.
  apply evaluateFunction_base_member; [done| |].
  - by destruct Hk as [->|[->| ->]].
  - intros p Hp. destruct Hk as [->|[->| ->]];
      vm_compute in Hp; simplify_eq; cbn; lia.
Qed.

(** X14.  [trunc] takes the integer part toward zero.  In every context that
    has the base class's [_fns] and [_fnsProps], on a host whose [Math.ceil]
    and [Math.floor] are the native ones -- whatever else its Math object
    (a [trunc] of its own included) and the client tables hold --
    evaluating [trunc] on a number applies the built-in function once and
    returns a number: for a finite argument an integer that lies between
    zero and the argument and is less than one away from it; for NaN and
    the infinities the argument itself.  Arguments after the first are
    ignored, and [trunc] of the result is the result. *)
Theorem trunc_takes_integer_part
    (Math : object) (host : func -> object -> list value -> Result value)
    (w : World) (x : number) (rest : list value) :
  nativeCeilFloor Math host ->
  hasBaseFns (self w) ->
  exists t : number,
    evaluateFunction Math (Fns.apply Math host) "trunc" (VNumber x :: rest) w
      = (Ok (VNumber t), applying w "trunc" (VNumber x :: rest))
    ∧ evaluateFunction Math (Fns.apply Math host) "trunc" [VNumber t] w
      = (Ok (VNumber t), applying w "trunc" [VNumber t])
    ∧ match x with
      | Finite q =>
          exists z : Z,
            t = Finite (inject_Z z)
            ∧ ((0 <= q)%Q ->
               0 <= z ∧ (inject_Z z <= q)%Q ∧ (q < inject_Z z + 1)%Q)
            ∧ ((q <= 0)%Q ->
               z <= 0 ∧ (q <= inject_Z z)%Q ∧ (inject_Z z - 1 < q)%Q)
      | _ => t = x
      end.
Proof.
  intros Hnative Hbase.
  assert (Heval : forall (y : number) (l : list value),
            evaluateFunction Math (Fns.apply Math host) "trunc" (VNumber y :: l) w
            = (Ok (VNumber (match y with
                            | Finite q => Finite (inject_Z (towardZero q))
                            | _ => y
                            end)),
               applying w "trunc" (VNumber y :: l))).
  { intros y l.
    rewrite (evaluateFunction_numeric _ _ _ "trunc" _ _ Hbase) by auto.
    change (Fns.apply Math host (DGFn "trunc") base_fns (VNumber y :: l))
      with (Fns.trunc_apply Math host base_fns (VNumber y :: l)).
    by rewrite (trunc_apply_number _ _ _ _ _ Hnative). }
  destruct x as [q| | |].
  - exists (Finite (inject_Z (towardZero q))).
    split; [apply Heval|]. split.
    + rewrite Heval. by rewrite towardZero_integer.
    + exists (towardZero q). split; [done|]. apply towardZero_bounds.
  - exists NaN. by rewrite !Heval.
  - exists Infinity. by rewrite !Heval.
  - exists NegInfinity. by rewrite !Heval.
Qed.


Lemma this_trunc_missing (Math : object)
    (host : func -> object -> list value -> Result value) (this : object)
    (v : value) :
  isFunction (get this "trunc") = false ->
  Fns.this_trunc Math host this v = Throw TypeError.
Proof. unfold Fns.this_trunc. by destruct (get this "trunc"). Qed.

Lemma checkArgs_passes {A} (iName : string) (iArgs : list A)
    (iArgSpecs : option propsMap) (w : World) :
  (forall p : FnProps,
     iArgSpecs ≫= (.!! iName) = Some p -> minArgs p <= Z.of_nat (length iArgs)) ->
  checkArgs iName iArgs iArgSpecs w = (Ok tt, w).
Proof.
  intros H. destruct (iArgSpecs ≫= (.!! iName)) as [p|] eqn:Hp.
  - apply (checkArgs_enough _ _ _ p); [done|by apply H].
  - by apply checkArgs_no_entry.
Qed.

(** X17.  The built-in [frac], and [round] when given digits, call [trunc]
    on the table they are applied to.  Bound under a name that resolves in a
    scope whose table has no function [trunc] -- a client table that borrows
    the built-in function, say -- they pass the argument check and then
    raise a TypeError, whatever the arguments. *)
Theorem borrowed_builtin_needs_trunc
    (Math : object) (host : func -> object -> list value -> Result value)
    (w : World) (iName : string) (iArgs : list value) (sc : scope) (k : string) :
  resolveFunction Math (self w) iName = Some sc ->
  get (scopeTable Math (self w) sc) iName = VFunction (DGFn k) ->
  isFunction (get (scopeTable Math (self w) sc) "trunc") = false ->
  (forall p : FnProps,
     metadata Math (self w) iName = Some p ->
     minArgs p <= Z.of_nat (length iArgs)) ->
  k = "frac" ∨ (k = "round" ∧ SC_none (argument 1 iArgs) = false) ->
  evaluateFunction Math (Fns.apply Math host) iName iArgs w
  = (Throw TypeError,
     withApplied
       (applied w ++ [{| callee := DGFn k;
                         thisArg := scopeTable Math (self w) sc;
                         args := iArgs |}]) w).
Proof.
  intros Hsc Hf Htrunc Harity Hk.
  rewrite (metadata_resolved _ _ _ _ Hsc) in Harity.
  rewrite (evaluateFunction_resolved _ _ _ _ _ _ Hsc). unfold bind.
  rewrite (checkArgs_passes _ _ _ _ Harity).
  rewrite (applyMember_function _ _ _ _ _ _ Hf). f_equal.
  destruct Hk as [->|[-> Hn]]; cbn.
  - unfold Fns.frac_apply. by rewrite (this_trunc_missing _ _ _ _ Htrunc).
  - unfold Fns.round_apply. rewrite Hn.
    by rewrite (this_trunc_missing _ _ _ _ Htrunc).
Qed.

Lemma borrowed_builtin_needs_trunc_witness :
  let w := fresh borrowing_context in
  let tbl := scopeTable stdMath (self w) Client in
  resolveFunction stdMath (self w) "fractional" = Some Client
  ∧ get tbl "fractional" = VFunction (DGFn "frac")
  ∧ isFunction (get tbl "trunc") = false
  ∧ (forall p : FnProps,
       metadata stdMath (self w) "fractional" = Some p ->
       minArgs p <= Z.of_nat (length [VNumber (5 # 2)]))
  ∧ evaluateFunction stdMath (Fns.apply stdMath firstArg) "fractional"
      [VNumber (5 # 2)] w
    = (Throw TypeError,
       withApplied
         (applied w ++ [{| callee := DGFn "frac"; thisArg := tbl;
                           args := [VNumber (5 # 2)] |}]) w).
Proof.
  intros w tbl.
  assert (H1 : resolveFunction stdMath (self w) "fractional" = Some Client)
    by (vm_compute; reflexivity).
  assert (H2 : get tbl "fractional" = VFunction (DGFn "frac"))
    by (vm_compute; reflexivity).
  assert (H3 : isFunction (get tbl "trunc") = false) by (vm_compute; reflexivity).
  assert (H4 : forall p : FnProps,
             metadata stdMath (self w) "fractional" = Some p ->
             minArgs p <= Z.of_nat (length [VNumber (5 # 2)]))
    by (intros p Hp; vm_compute in Hp; discriminate Hp).
  split; [exact H1|]. split; [exact H2|]. split; [exact H3|]. split; [exact H4|].
  exact (borrowed_builtin_needs_trunc stdMath firstArg w "fractional"
           [VNumber (5 # 2)] Client "frac" H1 H2 H3 H4 (or_introl eq_refl)).
Defined.

Lemma towardZero_small (k : Q) : (-1 < k)%Q -> (k < 1)%Q -> towardZero k = 0.
Proof.
  intros H1 H2. destruct (towardZero_bounds k) as [Hpos Hneg].
  destruct (Qlt_le_dec k 0) as [Hk|Hk].
  - destruct Hneg as (Ha & Hb & _); [lra|].
    assert (Hlo : (inject_Z (-1) < inject_Z (towardZero k))%Q)
      by (change (inject_Z (-1)) with (-1 # 1)%Q; lra).
    rewrite <- Zlt_Qlt in Hlo. lia.
  - destruct (Hpos Hk) as (Ha & Hb & _).
    assert (Hhi : (inject_Z (towardZero k) < inject_Z 1)%Q)
      by (change (inject_Z 1) with 1%Q; lra).
    rewrite <- Zlt_Qlt in Hhi. lia.
Qed.

(** X18.  [round] to no digits.  In a context with the base class's tables,
    on a host whose [Math.round], [Math.ceil] and [Math.floor] are the
    native ones and whose [Math.pow] takes 10 to the power 0 to 1,
    evaluating [round] on a number with no digits argument, with [undefined]
    or [null] for it, or with a number strictly between -1 and 1 (which
    [trunc] takes to zero) applies the built-in function once and returns a
    number: for a finite argument the integer nearest to it, the larger one
    when two are equally near -- an integer [z] with
    [x - 1/2 < z <= x + 1/2]; for NaN and the infinities the argument
    itself. *)
Theorem round_without_digits
    (Math : object) (host : func -> object -> list value -> Result value)
    (w : World) (x : number) (rest : list value) :
  nativeCeilFloor Math host ->
  nativeRound Math host ->
  hasBaseFns (self w) ->
  noDigits rest ->
  exists r : number,
    evaluateFunction Math (Fns.apply Math host) "round" (VNumber x :: rest) w
      = (Ok (VNumber r), applying w "round" (VNumber x :: rest))
    ∧ match x with
      | Finite q =>
          exists z : Z,
            r = Finite (inject_Z z)
            ∧ (q - (1 # 2) < inject_Z z)%Q ∧ (inject_Z z <= q + (1 # 2))%Q
      | _ => r = x
      end.
Proof.
  intros Hnative [Hrounds Hpow] Hbase Hdigits.
  rewrite (evaluateFunction_numeric _ _ _ "round" _ _ Hbase) by auto.
  change (Fns.apply Math host (DGFn "round") base_fns (VNumber x :: rest))
    with (Fns.round_apply Math host base_fns (VNumber x :: rest)).
  assert (Hround : Fns.Math_call Math host "round" [VNumber x]
                   = Ok (VNumber (Math_round x)))
    by apply Hrounds.
  assert (Hresult : Fns.round_apply Math host base_fns (VNumber x :: rest)
                    = Ok (VNumber (Math_round x))).
  { unfold Fns.round_apply.
    change (argument 0 (VNumber x :: rest)) with (VNumber x).
    destruct rest as [|n rest].
    - exact Hround.
    - change (argument 1 (VNumber x :: n :: rest)) with n.
      destruct Hdigits as [Hn|(k & -> & Hk1 & Hk2)].
      + by rewrite Hn.
      + cbn [SC_none]. rewrite this_trunc_base.
        rewrite (trunc_apply_number _ _ _ _ _ Hnative). cbn [bindResult].
        rewrite (towardZero_small k Hk1 Hk2).
        change (VNumber (Finite (inject_Z 0))) with (VNumber 0).
        rewrite Hpow. cbn [bindResult]. rewrite Hround. reflexivity. }
  rewrite Hresult. exists (Math_round x). split; [done|].
  destruct x as [q| | |]; try reflexivity.
  exists (Qfloor (q + (1 # 2))). split; [done|].
  pose proof (Qfloor_le (q + (1 # 2))) as Hle.
  pose proof (Qlt_floor (q + (1 # 2))) as Hlt.
  rewrite inject_Z_plus in Hlt. change (inject_Z 1) with 1%Q in Hlt.
  split; lra.
Qed.

(** ** Compiling several identifiers *)

Lemma compileVariable_result (w : World) (iName : string) :
  exists code : string,
    compileVariable iName w
    = (Ok code,
       if isBound (self w) iName then w
       else withRegistered (registered w ++ [unresolvedDependency iName]) w).
Proof.
  unfold isBound, isConstant, compileVariable. unfold bind at 1. unfold getSelf.
  destruct (bool_decide (iName = "pi") || bool_decide (iName = "π"));
    [by eexists|].
  destruct (bool_decide (iName = "e")); [by eexists|].
  destruct (defines (eVars (self w)) iName); [by eexists|].
  destruct (defines (vars (self w)) iName); by eexists.
Qed.

(** X19.  Dependencies are registered per occurrence.  Compiling the
    identifiers of a list one after the other never raises an exception,
    yields one piece of code per identifier, and registers one unresolved
    dependency for each occurrence of an unbound name, in the order of the
    occurrences -- a name that occurs twice is registered twice. *)
Theorem compileVariables_registers_each_occurrence
    (w : World) (names : list string) :
  exists codes : list string,
    compileVariables names w
    = (Ok codes,
       withRegistered
         (registered w
          ++ (unresolvedDependency
                <$> List.filter (fun iName => negb (isBound (self w) iName)) names))
         w)
    ∧ length codes = length names.
Proof.
  revert w. induction names as [|iName names IH]; intros w.
  - exists []. cbn. rewrite app_nil_r. split; [|done]. by destruct w.
  - destruct (compileVariable_result w iName) as [code Hcode].
    cbn [compileVariables]. unfold bind at 1. rewrite Hcode.
    destruct (isBound (self w) iName) eqn:Hb.
    + destruct (IH w) as (codes & Hcodes & Hlen).
      exists (code :: codes). unfold bind at 1. rewrite Hcodes.
      cbn [List.filter]. rewrite Hb. cbn. by rewrite Hlen.
    + destruct (IH (withRegistered (registered w ++ [unresolvedDependency iName]) w))
        as (codes & Hcodes & Hlen).
      exists (code :: codes). unfold bind at 1. rewrite Hcodes.
      cbn [List.filter]. rewrite Hb. cbn. rewrite <- app_assoc, Hlen. done.
Qed.

(** A host with a [trunc] of its own in its Math object, and a client that
    supplies a [round]: the built-in ones are the ones applied. *)
Lemma trunc_takes_integer_part_witness :
  let es2015Math : object := <[ "trunc" := VFunction (MathFn "trunc") ]> stdMath in
  let w := withClient (Some (plainObject {[ "round" := VFunction (ClientFn "round") ]}))
             None (fresh base_context) in
  nativeCeilFloor es2015Math roundingHost
  ∧ hasBaseFns (self w)
  ∧ exists t : number,
      evaluateFunction es2015Math (Fns.apply es2015Math roundingHost) "trunc"
        [VNumber (-27 # 10); VNull] w
        = (Ok (VNumber t), applying w "trunc" [VNumber (-27 # 10); VNull])
      ∧ evaluateFunction es2015Math (Fns.apply es2015Math roundingHost) "trunc"
          [VNumber t] w
        = (Ok (VNumber t), applying w "trunc" [VNumber t])
      ∧ exists z : Z,
          t = Finite (inject_Z z)
          ∧ ((0 <= -27 # 10)%Q ->
             0 <= z ∧ (inject_Z z <= -27 # 10)%Q ∧ (-27 # 10 < inject_Z z + 1)%Q)
          ∧ ((-27 # 10 <= 0)%Q ->
             z <= 0 ∧ (-27 # 10 <= inject_Z z)%Q ∧ (inject_Z z - 1 < -27 # 10)%Q).
Proof.
  intros es2015Math w.
  assert (H1 : nativeCeilFloor es2015Math roundingHost)
    by (intros x; split; vm_compute; reflexivity).
  assert (H2 : hasBaseFns (self w)) by (split; reflexivity).
  split; [exact H1|]. split; [exact H2|].
  exact (trunc_takes_integer_part es2015Math roundingHost w (-27 # 10) [VNull] H1 H2).
Defined.


Lemma round_without_digits_witness :
  let w := fresh base_context in
  nativeCeilFloor stdMath roundingHost
  ∧ nativeRound stdMath roundingHost
  ∧ hasBaseFns (self w)
  ∧ noDigits [VNumber (9 # 10)]
  ∧ exists r : number,
      evaluateFunction stdMath (Fns.apply stdMath roundingHost) "round"
        [VNumber (5 # 2); VNumber (9 # 10)] w
        = (Ok (VNumber r), applying w "round" [VNumber (5 # 2); VNumber (9 # 10)])
      ∧ exists z : Z,
          r = Finite (inject_Z z)
          ∧ ((5 # 2) - (1 # 2) < inject_Z z)%Q ∧ (inject_Z z <= (5 # 2) + (1 # 2))%Q.
Proof.
  intros w.
  assert (H0 : nativeCeilFloor stdMath roundingHost)
    by (intros x; split; vm_compute; reflexivity).
  assert (H1 : nativeRound stdMath roundingHost)
    by (split; [intros x|]; vm_compute; reflexivity).
  assert (H2 : hasBaseFns (self w)) by (split; reflexivity).
  assert (H3 : noDigits [VNumber (9 # 10)])
    by (right; exists (9 # 10)%Q; split; [reflexivity|split; reflexivity]).
  split; [exact H0|]. split; [exact H1|]. split; [exact H2|]. split; [exact H3|].
  exact (round_without_digits stdMath roundingHost w (5 # 2) [VNumber (9 # 10)]
           H0 H1 H2 H3).
Defined.

(** ** Where the two paths part *)

(** X20.  A variable declared in [eVars] but missing from the evaluation
    context at call time.  For a name that can follow a dot, is no constant,
    is declared in [eVars] and is not defined in [vars], and an evaluation
    context that is an object without the name: the function made from the
    compiled code returns [undefined] and raises nothing, whereas direct
    evaluation with the same evaluation context raises the
    [VarReferenceError]. *)
Theorem declared_variable_missing_at_call
    (Math : object) (ToObject : value -> object) (globalObject : object)
    (w : World) (iName : string) (c : value) (o : object) :
  isIdentifierName iName = true ->
  isConstant iName = false ->
  defines (eVars (self w)) iName = true ->
  defines (vars (self w)) iName = false ->
  get o iName = VUndefined ->
  exists code : string,
    compileVariable iName w = (Ok code, w)
    ∧ callContextFunction Math ToObject globalObject (createContextFunction code)
        c (VObject o)
      = Some (Ok VUndefined)
    ∧ evaluateVariable Math ToObject iName (VObject o) w
      = (Throw (VarReferenceError (VString iName)), w).
Proof.
  intros Hid Hconst HeVars Hvars Ho.
  destruct (not_constant _ Hconst) as [Hpi He].
  exists ("e." +:+ iName). split; [|split].
  - unfold compileVariable. unfold bind at 1. unfold getSelf.
    by rewrite Hpi, He, HeVars.
  - rewrite (call_environment_read _ _ _ _ _ _ Hid). cbn. by rewrite Ho.
  - apply evaluateVariable_unresolved; [done|right; by exists o|done].
Qed.

Lemma declared_variable_missing_at_call_witness :
  let w := fresh bound_context in
  isIdentifierName "y" = true
  ∧ isConstant "y" = false
  ∧ defines (eVars (self w)) "y" = true
  ∧ defines (vars (self w)) "y" = false
  ∧ get (plainObject ∅) "y" = VUndefined
  ∧ exists code : string,
      compileVariable "y" w = (Ok code, w)
      ∧ callContextFunction stdMath bareToObject ∅ (createContextFunction code)
          (contextObject bound_context) (VObject (plainObject ∅))
        = Some (Ok VUndefined)
      ∧ evaluateVariable stdMath bareToObject "y" (VObject (plainObject ∅)) w
        = (Throw (VarReferenceError (VString "y")), w).
Proof.
  intros w.
  assert (H1 : isIdentifierName "y" = true) by reflexivity.
  assert (H2 : isConstant "y" = false) by reflexivity.
  assert (H3 : defines (eVars (self w)) "y" = true) by reflexivity.
  assert (H4 : defines (vars (self w)) "y" = false) by reflexivity.
  assert (H5 : get (plainObject ∅) "y" = VUndefined) by reflexivity.
  repeat (split; [assumption|]).
  exact (declared_variable_missing_at_call stdMath bareToObject ∅ w "y"
           (contextObject bound_context) (plainObject ∅) H1 H2 H3 H4 H5).
Defined.

(** X21.  An instance variable that the evaluation context also binds.  For
    a name that can follow a dot, is no constant, is not declared in [eVars]
    and is defined in [vars], and an evaluation context that is an object
    defining the name: the function made from the compiled code returns the
    value of [vars] and does not look at the evaluation context, whereas
    direct evaluation returns the evaluation context's value. *)
Theorem undeclared_binding_at_call
    (Math : object) (ToObject : value -> object) (globalObject : object)
    (w : World) (iName : string) (o : object) :
  isIdentifierName iName = true ->
  isConstant iName = false ->
  defines (eVars (self w)) iName = false ->
  defines (vars (self w)) iName = true ->
  get o iName ≠ VUndefined ->
  exists code : string,
    compileVariable iName w = (Ok code, w)
    ∧ callContextFunction Math ToObject globalObject (createContextFunction code)
        (contextObject (self w)) (VObject o)
      = Some (Ok (get (table (vars (self w))) iName))
    ∧ evaluateVariable Math ToObject iName (VObject o) w = (Ok (get o iName), w).
Proof.
  intros Hid Hconst HeVars Hvars Ho.
  destruct (not_constant _ Hconst) as [Hpi He].
  exists ("c.vars." +:+ iName). split; [|split].
  - unfold compileVariable. unfold bind at 1. unfold getSelf.
    by rewrite Hpi, He, HeVars, Hvars.
  - unfold defines in Hvars. destruct (vars (self w)) as [t|] eqn:Ht; [|done].
    by rewrite (call_instance_read _ _ _ _ t _ _ Hid Ht).
  - unfold evaluateVariable. unfold bind at 1. unfold getSelf.
    rewrite Hpi, He. unfold bind. cbn.
    by destruct (get o iName).
Qed.

Lemma undeclared_binding_at_call_witness :
  let w := fresh bound_context in
  let o : object := plainObject {[ "x" := VString "shadow" ]} in
  isIdentifierName "x" = true
  ∧ isConstant "x" = false
  ∧ defines (eVars (self w)) "x" = false
  ∧ defines (vars (self w)) "x" = true
  ∧ get o "x" ≠ VUndefined
  ∧ exists code : string,
      compileVariable "x" w = (Ok code, w)
      ∧ callContextFunction stdMath bareToObject ∅ (createContextFunction code)
          (contextObject (self w)) (VObject o)
        = Some (Ok (get (table (vars (self w))) "x"))
      ∧ evaluateVariable stdMath bareToObject "x" (VObject o) w = (Ok (get o "x"), w).
Proof.
  intros w o.
  assert (H1 : isIdentifierName "x" = true) by reflexivity.
  assert (H2 : isConstant "x" = false) by reflexivity.
  assert (H3 : defines (eVars (self w)) "x" = false) by reflexivity.
  assert (H4 : defines (vars (self w)) "x" = true) by reflexivity.
  assert (H5 : get o "x" ≠ VUndefined) by (vm_compute; discriminate).
  repeat (split; [assumption|]).
  exact (undeclared_binding_at_call stdMath bareToObject ∅ w "x" o H1 H2 H3 H4 H5).
Defined.
